(** * lingua-proxy: the two tutor route handlers

    A shallow embedding of [src/app/api/tutor/route.ts] (variant A, the Gemini
    handler) and of the second, unnamed route file (variant B, the OpenAI
    handler), and the properties of the specification checked against them.

    Strings are JavaScript strings: sequences of UTF-16 code units.  JSON
    values are an inductive type; objects are association lists in insertion
    order.  The handlers run in a small control monad that distinguishes
    falling through to the next statement, [return]ing a response and
    [throw]ing into the handler's outer [try]/[catch]. *)

From Stdlib Require Import List Bool ZArith NArith Lia String Ascii.
Import ListNotations.

Set Warnings "-register-all".
Local Open Scope N_scope.

(** ** JavaScript strings *)

Module JsString.

(** A string value: its UTF-16 code units. *)
Definition jsstring := list N.

(** Code points of a UTF-8 byte sequence (the encoding of this file's
    literals).  Truncated sequences are dropped. *)
Fixpoint utf8_points (bs : list N) : list N :=
  match bs with
  | [] => []
  | b0 :: t0 =>
      if b0 <? 128 then b0 :: utf8_points t0
      else
        match t0 with
        | [] => []
        | b1 :: t1 =>
            if b0 <? 224 then ((b0 - 192) * 64 + (b1 - 128)) :: utf8_points t1
            else
              match t1 with
              | [] => []
              | b2 :: t2 =>
                  if b0 <? 240
                  then ((b0 - 224) * 4096 + (b1 - 128) * 64 + (b2 - 128))
                         :: utf8_points t2
                  else
                    match t2 with
                    | [] => []
                    | b3 :: t3 =>
                        ((b0 - 240) * 262144 + (b1 - 128) * 4096
                         + (b2 - 128) * 64 + (b3 - 128)) :: utf8_points t3
                    end
              end
        end
  end.

(** UTF-16 code units of one code point. *)
Definition utf16_units (cp : N) : list N :=
  if cp <? 65536 then [cp]
  else [55296 + (cp - 65536) / 1024; 56320 + (cp - 65536) mod 1024].

(** A source literal as a JavaScript string. *)
Definition js (s : string) : jsstring :=
  flat_map utf16_units
    (utf8_points (map N_of_ascii (list_ascii_of_string s))).

Definition eqb (a b : jsstring) : bool :=
  if list_eq_dec N.eq_dec a b then true else false.

(** [!s] on a string: the empty string is the only falsy one. *)
Definition is_empty (s : jsstring) : bool :=
  match s with [] => true | _ :: _ => false end.

(** ECMAScript WhiteSpace and LineTerminator code points, the ones
    [String.prototype.trim] strips. *)
Definition is_space (c : N) : bool :=
  (c =? 9) || (c =? 10) || (c =? 11) || (c =? 12) || (c =? 13) || (c =? 32)
  || (c =? 160) || (c =? 5760) || ((8192 <=? c) && (c <=? 8202))
  || (c =? 8232) || (c =? 8233) || (c =? 8239) || (c =? 8287)
  || (c =? 12288) || (c =? 65279).

Fixpoint trimStart (s : jsstring) : jsstring :=
  match s with
  | [] => []
  | c :: t => if is_space c then trimStart t else s
  end.

Definition trimEnd (s : jsstring) : jsstring := rev (trimStart (rev s)).

(** [s.trim()] *)
Definition trim (s : jsstring) : jsstring := trimEnd (trimStart s).

Fixpoint starts_with (p s : jsstring) : bool :=
  match p, s with
  | [], _ => true
  | _ :: _, [] => false
  | a :: p', b :: s' => (a =? b) && starts_with p' s'
  end.

(** [s.includes(p)] *)
Fixpoint includes (s p : jsstring) : bool :=
  starts_with p s ||
  match s with
  | [] => false
  | _ :: t => includes t p
  end.

(** [parts.join(sep)] on an array of strings. *)
Fixpoint join (sep : jsstring) (parts : list jsstring) : jsstring :=
  match parts with
  | [] => []
  | [p] => p
  | p :: rest => p ++ sep ++ join sep rest
  end.

(** Decimal digits of a natural number, most significant first. *)
Fixpoint digits_fuel (fuel : nat) (n : N) (acc : jsstring) : jsstring :=
  match fuel with
  | O => acc
  | S fuel' =>
      let acc' := (48 + n mod 10) :: acc in
      if n <? 10 then acc' else digits_fuel fuel' (n / 10) acc'
  end.

(** The rendering of an integer by [Number::toString], as used by template
    literals and [String]: plain decimal (exact below 10^21). *)
Definition decimal (z : Z) : jsstring :=
  let n := Z.abs_N z in
  let ds := digits_fuel (S (N.to_nat (N.log2 n))) n [] in
  if (z <? 0)%Z then 45 :: ds else ds.

(** The code points a string iterator yields: a high surrogate followed by
    a low one is one item, every other code unit stands alone. *)
Fixpoint iter_points (s : jsstring) : list jsstring :=
  match s with
  | [] => []
  | c :: t =>
      match t with
      | d :: t' =>
          if (55296 <=? c) && (c <=? 56319) && (56320 <=? d) && (d <=? 57343)
          then [c; d] :: iter_points t'
          else [c] :: iter_points t
      | [] => [[c]]
      end
  end.

End JsString.
Export JsString.

(** ** JSON values and the language operations the handlers use *)

Module JsValue.

(** A value as [JSON.parse] builds it, plus [undefined].  A number is carried
    by its rendering under [Number::toString] (for example 0.6 as the string
    0.6 and the status 429 as 429): string conversion and truthiness are the
    only observations the handlers make of a number.  An object lists its own
    properties in insertion order. *)
Inductive JsVal : Type :=
| JUndefined
| JNull
| JBool (b : bool)
| JNum (repr : jsstring)
| JStr (s : jsstring)
| JArr (items : list JsVal)
| JObj (props : list (jsstring * JsVal)).

(** Own property lookup. *)
Fixpoint lookup (k : jsstring) (props : list (jsstring * JsVal)) : option JsVal :=
  match props with
  | [] => None
  | (k', v) :: rest => if eqb k k' then Some v else lookup k rest
  end.

Definition has_own (k : jsstring) (props : list (jsstring * JsVal)) : bool :=
  match lookup k props with Some _ => true | None => false end.

(** [v?.k] for the property names the handlers read (lang, text, history,
    previous_response_id, role, candidates, content, parts, responseId,
    output, type, id).  None of them is an index, [length] or a member of a
    built-in prototype, so only an object's own property can answer; null
    and undefined short-circuit to undefined.  The handlers' plain accesses
    [data.responseId], [p.text] and [body.previous_response_id] are all
    guarded by a truthiness test of the same optional access. *)
Definition get (v : JsVal) (k : jsstring) : JsVal :=
  match v with
  | JObj props => match lookup k props with Some x => x | None => JUndefined end
  | _ => JUndefined
  end.

(** [v?.[0]] *)
Definition get0 (v : JsVal) : JsVal :=
  match v with
  | JArr (x :: _) => x
  | JStr (c :: _) => JStr [c]
  | JObj props => match lookup (js "0") props with Some x => x | None => JUndefined end
  | _ => JUndefined
  end.

(** [v ?? d] *)
Definition nullish (v d : JsVal) : JsVal :=
  match v with
  | JUndefined | JNull => d
  | _ => v
  end.

(** ToBoolean *)
Definition truthy (v : JsVal) : bool :=
  match v with
  | JUndefined | JNull => false
  | JBool b => b
  | JNum r => negb (eqb r (js "0") || eqb r (js "NaN"))
  | JStr s => negb (is_empty s)
  | JArr _ | JObj _ => true
  end.

(** [Array.isArray(v)] *)
Definition isArray (v : JsVal) : option (list JsVal) :=
  match v with JArr l => Some l | _ => None end.

(** [typeof v === "string"] *)
Definition isString (v : JsVal) : option jsstring :=
  match v with JStr s => Some s | _ => None end.

(** The errors the engine and the platform raise. *)
Inductive ErrorKind : Type :=
| NotCallable        (* TypeError: x.toString is not a function *)
| CannotConvert      (* TypeError: cannot convert object to primitive value *)
| NotIterable        (* TypeError: x is not iterable *)
| NullAccess         (* TypeError: cannot read properties of null/undefined *)
| URIMalformed       (* URIError: lone surrogate in encodeURIComponent *)
| StatusRange        (* RangeError: Response status outside 200..599 *)
| NullBodyStatus (st : Z).  (* TypeError: Response body with null body status st *)

Inductive Thrown : Type :=
| EngineError (k : ErrorKind)
| Rejected (message : jsstring).   (* a rejected [fetch] promise *)

(** The ToString abstract operation, [String(v)].  [inl] is a throw.
    An object from JSON converts through [Object.prototype.toString] unless it
    has an own property named toString: that one is not callable, the
    inherited [valueOf] returns the object itself, and the conversion throws.
    An array converts through [join(",")], null and undefined elements
    rendering empty. *)
Fixpoint ToString (v : JsVal) : Thrown + jsstring :=
  match v with
  | JUndefined => inr (js "undefined")
  | JNull => inr (js "null")
  | JBool true => inr (js "true")
  | JBool false => inr (js "false")
  | JNum r => inr r
  | JStr s => inr s
  | JArr items =>
      (fix join_items (l : list JsVal) : Thrown + jsstring :=
         match l with
         | [] => inr []
         | x :: rest =>
             let item :=
               match x with
               | JUndefined | JNull => inr []
               | _ => ToString x
               end in
             match item with
             | inl e => inl e
             | inr sx =>
                 match rest with
                 | [] => inr sx
                 | _ :: _ =>
                     match join_items rest with
                     | inl e => inl e
                     | inr sr => inr (sx ++ js "," ++ sr)
                     end
                 end
             end
         end) items
  | JObj props =>
      if has_own (js "toString") props then inl (EngineError CannotConvert)
      else inr (js "[object Object]")
  end.

(** The method call [v.toString()]: on an object the own property shadows
    the inherited method and calling it throws; primitives and arrays use
    their prototype's method, which agrees with ToString. *)
Definition toString (v : JsVal) : Thrown + jsstring :=
  match v with
  | JUndefined | JNull => inl (EngineError NullAccess)
  | JObj props =>
      if has_own (js "toString") props then inl (EngineError NotCallable)
      else inr (js "[object Object]")
  | _ => ToString v
  end.

(** The items a [for ... of] loop visits: the elements of an array, the code
    points of a string; any other JSON value is not iterable. *)
Definition iterate (v : JsVal) : Thrown + list JsVal :=
  match v with
  | JArr l => inr l
  | JStr s => inr (map JStr (iter_points s))
  | _ => inl (EngineError NotIterable)
  end.

(** A number that JSON has no text for: the renderings of the infinities
    (what [JSON.parse] makes of 1e999, say) and of NaN. *)
Definition non_finite (repr : jsstring) : bool :=
  eqb repr (js "Infinity") || eqb repr (js "-Infinity") || eqb repr (js "NaN").

(** [JSON.stringify(v)], given as the JSON value its text denotes, which is
    what the reader of that text gets back.  A non-finite number is written
    null; a property whose value is undefined is left out and an undefined
    array element is written null; everything else is written as it is
    (strings, escapes included, and finite numbers read back unchanged; no
    value built by [JSON.parse] has a callable [toJSON]).  Properties are
    written in the order the object lists them. *)
Fixpoint stringified (v : JsVal) : JsVal :=
  match v with
  | JNum r => if non_finite r then JNull else JNum r
  | JArr items =>
      JArr ((fix elements (l : list JsVal) : list JsVal :=
               match l with
               | [] => []
               | x :: rest =>
                   match x with
                   | JUndefined => JNull
                   | _ => stringified x
                   end :: elements rest
               end) items)
  | JObj props =>
      JObj ((fix written (l : list (jsstring * JsVal)) : list (jsstring * JsVal) :=
               match l with
               | [] => []
               | (k, x) :: rest =>
                   match x with
                   | JUndefined => written rest
                   | _ => (k, stringified x) :: written rest
                   end
               end) props)
  | _ => v
  end.

(** A value [JSON.stringify] writes as it is: no non-finite number and no
    undefined anywhere in it. *)
Fixpoint finite_json (v : JsVal) : bool :=
  match v with
  | JUndefined => false
  | JNum r => negb (non_finite r)
  | JArr items =>
      (fix all (l : list JsVal) : bool :=
         match l with
         | [] => true
         | x :: rest => finite_json x && all rest
         end) items
  | JObj props =>
      (fix all (l : list (jsstring * JsVal)) : bool :=
         match l with
         | [] => true
         | (_, x) :: rest => finite_json x && all rest
         end) props
  | _ => true
  end.

End JsValue.
Export JsValue.

(** ** The platform: environment, requests, responses, fetch *)

Module Platform.

(** Sequencing of computations that may throw. *)
Definition bindE {A B : Type} (c : Thrown + A) (k : A -> Thrown + B) : Thrown + B :=
  match c with
  | inl e => inl e
  | inr a => k a
  end.

Notation "x <~ c ;; k" := (bindE c (fun x => k))
  (at level 61, c at next level, right associativity).

(** [process.env]: each variable is unset or a string. *)
Record Env : Type := {
  APP_TOKEN : option jsstring;
  GEMINI_API_KEY : option jsstring;
  GEMINI_MODEL : option jsstring;
  OPENAI_API_KEY : option jsstring;
  OPENAI_MODEL : option jsstring
}.

(** [x || d] where [x] is undefined or a string. *)
Definition or_else (x : option jsstring) (d : jsstring) : jsstring :=
  match x with
  | Some s => if is_empty s then d else s
  | None => d
  end.

(** [!x] where [x] is undefined or a string. *)
Definition missing (x : option jsstring) : bool :=
  match x with
  | Some s => is_empty s
  | None => true
  end.

(** What the engine and the host supply to a request: the Unicode lower-case
    mapping, [JSON.parse] ([None] when it throws), the value of
    [globalThis.crypto?.randomUUID?.()] ([None] when the host has no such
    function), [Date.now()], and the message of the error the engine raises
    while the request is handled.  A handler raises at most one error per
    request; for a call or an iteration that fails, V8 composes the message
    from the source text of the failing expression as it was built, so the
    text is the runtime's to give and no statement below depends on it. *)
Record Runtime : Type := {
  toLowerCase : jsstring -> jsstring;
  JSON_parse : jsstring -> option JsVal;
  randomUUID : option jsstring;
  now : Z;
  message_of : ErrorKind -> jsstring
}.

(** [e?.message ?? String(e)] for a caught error. *)
Definition message (rt : Runtime) (e : Thrown) : jsstring :=
  match e with
  | EngineError k => message_of rt k
  | Rejected m => m
  end.

Definition Headers := list (jsstring * jsstring).

(** [headers.get(name)] on a header list whose names the platform has already
    lower-cased and combined: [None] is null. *)
Fixpoint headers_get (h : Headers) (name : jsstring) : option jsstring :=
  match h with
  | [] => None
  | (n, v) :: rest => if eqb name n then Some v else headers_get rest name
  end.

(** An inbound request: its headers, the outcome of [req.json()] ([None] when
    the promise rejects) and the outcome of a [req.text()] issued after that
    rejection ([None] when it rejects too). *)
Record Request : Type := {
  req_headers : Headers;
  req_json : option JsVal;
  req_text : option jsstring
}.

(** A response: [body] is the JSON value of the body text, the text being
    what [JSON.stringify] wrote. *)
Record Response : Type := {
  status : Z;
  headers : Headers;
  body : JsVal
}.

(** Null body statuses of the Fetch standard. *)
Definition null_body_status (s : Z) : bool :=
  ((s =? 101) || (s =? 103) || (s =? 204) || (s =? 205) || (s =? 304))%Z.

(** [new NextResponse(text, {status, headers})], with [data] the JSON value
    of the text.  The class extends the platform [Response], whose constructor
    throws a RangeError for a status outside 200..599 and a TypeError when a
    body comes with a null body status. *)
Definition NextResponse (data : JsVal) (st : Z) (h : Headers) : Thrown + Response :=
  if ((st <? 200) || (599 <? st))%Z then inl (EngineError StatusRange)
  else if null_body_status st then inl (EngineError (NullBodyStatus st))
  else inr {| status := st; headers := h; body := data |}.

(** The outbound call: [payload] is the value handed to [JSON.stringify]. *)
Record FetchCall : Type := {
  url : jsstring;
  method : jsstring;
  call_headers : Headers;
  payload : JsVal
}.

(** What [await fetch(...)] gives: a rejection (network failure), or a
    response with its status and the outcome of [r.json()] ([None] when that
    promise rejects). *)
Inductive FetchOutcome : Type :=
| FetchRejects (reason : jsstring)
| FetchResponse (st : Z) (parsed : option JsVal).

(** [r.ok] *)
Definition ok (st : Z) : bool := ((200 <=? st) && (st <=? 299))%Z.

(** Control flow inside the handler's [try] block: go on with a value, leave
    through [return], or throw. *)
Inductive Ctl (A : Type) : Type :=
| Next (a : A)
| Return (r : Response)
| Throw (e : Thrown).

Arguments Next {A} a.
Arguments Return {A} r.
Arguments Throw {A} e.

Definition bind {A B : Type} (c : Ctl A) (k : A -> Ctl B) : Ctl B :=
  match c with
  | Next a => k a
  | Return r => Return r
  | Throw e => Throw e
  end.

Notation "x <- c ;; k" := (bind c (fun x => k))
  (at level 61, c at next level, right associativity).

(** A throwing expression evaluated inside the [try] block. *)
Definition lift {A : Type} (c : Thrown + A) : Ctl A :=
  match c with
  | inl e => Throw e
  | inr a => Next a
  end.

(** [return <expr>;] where building the response may throw. *)
Definition returning {A : Type} (c : Thrown + Response) : Ctl A :=
  match c with
  | inl e => Throw e
  | inr r => Return r
  end.

(** [try { body } catch (e) { return handler(e) }] around a block that always
    leaves through [return]. *)
Definition try_catch (block : Ctl Response) (handler : Thrown -> Thrown + Response)
  : Thrown + Response :=
  match block with
  | Next r => inr r
  | Return r => inr r
  | Throw e => handler e
  end.

(** What a handler invocation does: the response it resolves to (or the
    error it rejects with) and the outbound calls it issued. *)
Record Outcome : Type := {
  result : Thrown + Response;
  calls : list FetchCall
}.

(** [encodeURIComponent] *)
Definition unreserved (c : N) : bool :=
  ((65 <=? c) && (c <=? 90)) || ((97 <=? c) && (c <=? 122))
  || ((48 <=? c) && (c <=? 57))
  || (c =? 45) || (c =? 95) || (c =? 46) || (c =? 33) || (c =? 126)
  || (c =? 42) || (c =? 39) || (c =? 40) || (c =? 41).

Definition hex_digit (n : N) : N := if n <? 10 then 48 + n else 55 + n.

Definition percent (b : N) : jsstring := [37; hex_digit (b / 16); hex_digit (b mod 16)].

Definition utf8_bytes (cp : N) : list N :=
  if cp <? 128 then [cp]
  else if cp <? 2048 then [192 + cp / 64; 128 + cp mod 64]
  else if cp <? 65536
  then [224 + cp / 4096; 128 + (cp / 64) mod 64; 128 + cp mod 64]
  else [240 + cp / 262144; 128 + (cp / 4096) mod 64;
        128 + (cp / 64) mod 64; 128 + cp mod 64].

Definition is_high (c : N) : bool := (55296 <=? c) && (c <=? 56319).
Definition is_low (c : N) : bool := (56320 <=? c) && (c <=? 57343).

Fixpoint encodeURIComponent (s : jsstring) : Thrown + jsstring :=
  match s with
  | [] => inr []
  | c :: t =>
      if unreserved c then r <~ encodeURIComponent t ;; inr (c :: r)
      else if is_low c then inl (EngineError URIMalformed)
      else if is_high c then
        match t with
        | d :: t' =>
            if is_low d then
              r <~ encodeURIComponent t' ;;
              inr (flat_map percent
                     (utf8_bytes ((c - 55296) * 1024 + (d - 56320) + 65536)) ++ r)
            else inl (EngineError URIMalformed)
        | [] => inl (EngineError URIMalformed)
        end
      else r <~ encodeURIComponent t ;; inr (flat_map percent (utf8_bytes c) ++ r)
  end.

End Platform.
Export Platform.

(** ** Variant A: [src/app/api/tutor/route.ts], the Gemini handler *)

Module Gemini.

Definition response_headers : Headers :=
  [ (js "content-type", js "application/json; charset=utf-8");
    (js "access-control-allow-origin", js "*");
    (js "access-control-allow-headers", js "content-type, x-app-token");
    (js "access-control-allow-methods", js "POST, OPTIONS");
    (js "cache-control", js "no-store") ].

Definition json (data : JsVal) (st : Z) : Thrown + Response :=
  NextResponse (stringified data) st response_headers.

Inductive Lang : Type := es | it.

Definition normalizeLang (rt : Runtime) (input : jsstring) : Lang :=
  let v := trim (toLowerCase rt (or_else (Some input) (js ""))) in
  if eqb v (js "it") || includes v (js "ital") then it else es.

Definition quote : jsstring := [34].

Definition buildInstructions (lang : Lang) : jsstring :=
  let target :=
    match lang with
    | it => js "Italiano"
    | es => js "Espanhol (rioplatense neutro)"
    end in
  trim (js "
Você é um tutor de idiomas.
Idioma alvo: " ++ target ++ js ".
Idioma da interface/explicações: Português (Brasil).

Regras:
- Responda curto e natural no idioma alvo.
- Depois inclua uma seção " ++ quote ++ js "Correções" ++ quote
  ++ js " corrigindo a frase do usuário (se necessário).
- Depois inclua uma seção " ++ quote ++ js "Dica" ++ quote
  ++ js " com 1 dica objetiva.
- Se o usuário escrever em PT-BR, peça para ele tentar no idioma alvo.
").

(** One entry of the [contents] array. *)
Definition content (role text : jsstring) : JsVal :=
  JObj [ (js "role", JStr role);
         (js "parts", JArr [JObj [(js "text", JStr text)]]) ].

(** The loop of [buildContents] over the history array. *)
Fixpoint history_contents (h : list JsVal) : Thrown + list JsVal :=
  match h with
  | [] => inr []
  | m :: rest =>
      t0 <~ toString (nullish (get m (js "text")) (JStr (js ""))) ;;
      let t := trim t0 in
      if is_empty t then history_contents rest
      else
        roleRaw <~ toString (nullish (get m (js "role")) (JStr (js "user"))) ;;
        let role :=
          if eqb roleRaw (js "assistant") || eqb roleRaw (js "model")
          then js "model" else js "user" in
        more <~ history_contents rest ;;
        inr (content role t :: more)
  end.

Definition buildContents (history : JsVal) (userText : jsstring) : Thrown + list JsVal :=
  previous <~ match isArray history with
              | Some h => history_contents h
              | None => inr []
              end ;;
  inr (previous ++ [content (js "user") userText]).

(** The loop of [extractTextFromGemini] over the parts array. *)
Fixpoint part_texts (parts : list JsVal) : list jsstring :=
  match parts with
  | [] => []
  | p :: rest =>
      match (if truthy (get p (js "text")) then isString (get p (js "text")) else None) with
      | Some t => t :: part_texts rest
      | None => part_texts rest
      end
  end.

Definition extractTextFromGemini (data : JsVal) : jsstring :=
  let cand := get0 (get data (js "candidates")) in
  let parts := get (get cand (js "content")) (js "parts") in
  match isArray parts with
  | None => js ""
  | Some ps => trim (join (js "
") (part_texts ps))
  end.

Definition safeParseJson (rt : Runtime) (req : Request) : JsVal :=
  match req_json req with
  | Some v => v
  | None =>
      match req_text req with
      | None => JNull
      | Some t =>
          if is_empty t then JNull
          else match JSON_parse rt t with
               | Some v => v
               | None => JNull
               end
      end
  end.

Definition OPTIONS : Thrown + Response :=
  json (JObj [(js "ok", JBool true)]) 200.

(** Lines 106-110 of [POST]: the shared-secret check. *)
Definition authorize (env : Env) (req : Request) : Ctl unit :=
  let appToken := trim (or_else (APP_TOKEN env) (js "")) in
  if negb (is_empty appToken) then
    let sent := trim (or_else (headers_get (req_headers req) (js "x-app-token")) (js "")) in
    if negb (eqb sent appToken)
    then returning (json (JObj [(js "error", JStr (js "Unauthorized"))]) 401)
    else Next tt
  else Next tt.

(** Lines 112-121 of [POST]: reading and validating the request fields. *)
Definition validate (rt : Runtime) (req : Request) : Ctl (Lang * jsstring * JsVal) :=
  let body := safeParseJson rt req in
  langStr <- lift (toString (nullish (get body (js "lang")) (JStr (js "es")))) ;;
  let lang := normalizeLang rt langStr in
  text0 <- lift (toString (nullish (get body (js "text")) (JStr (js "")))) ;;
  let text := trim text0 in
  let history := get body (js "history") in
  if is_empty text
  then returning (json (JObj [(js "error", JStr (js "Missing text"))]) 400)
  else if 1500 <? N.of_nat (List.length text)
  then returning (json (JObj [(js "error", JStr (js "Text too long"))]) 400)
  else Next (lang, text, history).

(** Lines 123-150 of [POST]: the credential check and the outbound call. *)
Definition outbound (env : Env) (fields : Lang * jsstring * JsVal) : Ctl FetchCall :=
  let '(lang, text, history) := fields in
  let apiKey := trim (or_else (GEMINI_API_KEY env) (js "")) in
  if is_empty apiKey
  then returning (json (JObj [(js "error", JStr (js "Server missing GEMINI_API_KEY"))]) 500)
  else
    let model := trim (or_else (GEMINI_MODEL env) (js "gemini-2.0-flash")) in
    encoded <- lift (encodeURIComponent model) ;;
    let url := js "https://generativelanguage.googleapis.com/v1beta/models/"
               ++ encoded ++ js ":generateContent" in
    let instructions := buildInstructions lang in
    contents <- lift (buildContents history text) ;;
    let payload :=
      JObj [ (js "system_instruction",
              JObj [(js "parts", JArr [JObj [(js "text", JStr instructions)]])]);
             (js "contents", JArr contents);
             (js "generationConfig",
              JObj [ (js "temperature", JNum (js "0.6"));
                     (js "maxOutputTokens", JNum (js "280")) ]) ] in
    Next {| url := url;
            method := js "POST";
            call_headers :=
              [ (js "content-type", js "application/json; charset=utf-8");
                (js "x-goog-api-key", apiKey) ];
            payload := payload |}.

(** The identifier synthesized when the provider gives none:
    [globalThis.crypto?.randomUUID?.() ?? `r_${Date.now()}`]. *)
Definition synthesized_id (rt : Runtime) : jsstring :=
  match randomUUID rt with
  | Some u => u
  | None => js "r_" ++ decimal (now rt)
  end.

(** Lines 168-170 of [POST]:
    [(data?.responseId && String(data.responseId)) || synthesized]. *)
Definition response_id_of (rt : Runtime) (data : JsVal) : Thrown + jsstring :=
  if truthy (get data (js "responseId"))
  then
    s <~ ToString (get data (js "responseId")) ;;
    inr (if is_empty s then synthesized_id rt else s)
  else inr (synthesized_id rt).

(** Lines 152-184 of [POST]: what is made of the provider's answer. *)
Definition reply (rt : Runtime) (o : FetchOutcome) : Ctl Response :=
  match o with
  | FetchRejects reason => Throw (Rejected reason)
  | FetchResponse st parsed =>
      let data := match parsed with Some d => d | None => JObj [] end in
      if negb (ok st)
      then returning (json (JObj [ (js "error", JStr (js "Gemini error"));
                                   (js "status", JNum (decimal st));
                                   (js "details", data) ]) st)
      else
        let tutorText := extractTextFromGemini data in
        response_id <- lift (response_id_of rt data) ;;
        if is_empty tutorText
        then returning (json (JObj [ (js "error", JStr (js "Empty response"));
                                     (js "response_id", JStr response_id);
                                     (js "details", data) ]) 502)
        else returning (json (JObj [ (js "text", JStr tutorText);
                                     (js "response_id", JStr response_id) ]) 200)
  end.

(** The [catch] block of [POST]. *)
Definition server_error (rt : Runtime) (e : Thrown) : Thrown + Response :=
  json (JObj [ (js "error", JStr (js "Server error"));
               (js "details", JStr (message rt e)) ]) 500.

(** The statements of [POST] up to the [await fetch]. *)
Definition before_fetch (rt : Runtime) (env : Env) (req : Request) : Ctl FetchCall :=
  _ <- authorize env req ;;
  fields <- validate rt req ;;
  outbound env fields.

Definition POST (rt : Runtime) (env : Env) (req : Request)
    (fetch : FetchCall -> FetchOutcome) : Outcome :=
  match before_fetch rt env req with
  | Next call =>
      {| result := try_catch (reply rt (fetch call)) (server_error rt);
         calls := [call] |}
  | Return r => {| result := inr r; calls := [] |}
  | Throw e => {| result := server_error rt e; calls := [] |}
  end.

End Gemini.

(** ** Variant B: the second route file, the OpenAI handler *)

Module OpenAI.

Definition response_headers : Headers :=
  [ (js "content-type", js "application/json; charset=utf-8");
    (js "access-control-allow-origin", js "*");
    (js "access-control-allow-headers", js "content-type, x-app-token");
    (js "access-control-allow-methods", js "POST, OPTIONS") ].

Definition json (data : JsVal) (st : Z) : Thrown + Response :=
  NextResponse (stringified data) st response_headers.

Definition quote : jsstring := [34].

Definition buildInstructions (lang : jsstring) : jsstring :=
  let target :=
    if eqb lang (js "it") then js "Italiano"
    else js "Espanhol (rioplatense neutro)" in
  trim (js "
Você é um tutor de idiomas.
Idioma alvo: " ++ target ++ js ".
Idioma das explicações: Português (Brasil).
Regras:
- Responda curto e natural no idioma alvo.
- Depois inclua " ++ quote ++ js "Correções" ++ quote
  ++ js " corrigindo a frase do usuário (se necessário).
- Depois inclua " ++ quote ++ js "Dica" ++ quote
  ++ js " com 1 dica objetiva.
- Se o usuário escrever em PT-BR, peça para ele tentar no idioma alvo.
").

(** [v === lit] against a string literal. *)
Definition is_literal (v : JsVal) (lit : jsstring) : bool :=
  match v with
  | JStr s => eqb s lit
  | _ => false
  end.

(** The inner loop of [extractOutputText] over one item's content. *)
Fixpoint content_texts (content : list JsVal) : list jsstring :=
  match content with
  | [] => []
  | c :: rest =>
      match (if is_literal (get c (js "type")) (js "output_text")
             then isString (get c (js "text")) else None) with
      | Some t => t :: content_texts rest
      | None => content_texts rest
      end
  end.

(** The outer loop of [extractOutputText] over the output items. *)
Fixpoint output_texts (out : list JsVal) : Thrown + list jsstring :=
  match out with
  | [] => inr []
  | item :: rest =>
      if negb (is_literal (get item (js "type")) (js "message"))
      then output_texts rest
      else
        content <~ iterate (nullish (get item (js "content")) (JArr [])) ;;
        more <~ output_texts rest ;;
        inr (content_texts content ++ more)
  end.

Definition extractOutputText (openaiJson : JsVal) : Thrown + jsstring :=
  out <~ iterate (nullish (get openaiJson (js "output")) (JArr [])) ;;
  parts <~ output_texts out ;;
  inr (trim (join (js "
") parts)).

Definition OPTIONS : Thrown + Response :=
  json (JObj [(js "ok", JBool true)]) 200.

(** Lines 54-58 of [POST]: the shared-secret check. *)
Definition authorize (env : Env) (req : Request) : Ctl unit :=
  let appToken := or_else (APP_TOKEN env) (js "") in
  if negb (is_empty appToken) then
    let sent := or_else (headers_get (req_headers req) (js "x-app-token")) (js "") in
    if negb (eqb sent appToken)
    then returning (json (JObj [(js "error", JStr (js "Unauthorized"))]) 401)
    else Next tt
  else Next tt.

(** Lines 60-67 of [POST]: reading and validating the request fields; the
    third component is [previous_response_id], [None] for undefined. *)
Definition validate (req : Request) : Ctl (jsstring * jsstring * option jsstring) :=
  let body := match req_json req with Some v => v | None => JNull end in
  lang <- lift (toString (nullish (get body (js "lang")) (JStr (js "es")))) ;;
  text0 <- lift (toString (nullish (get body (js "text")) (JStr (js "")))) ;;
  let text := trim text0 in
  previous_response_id <-
    (if truthy (get body (js "previous_response_id"))
     then p <- lift (toString (get body (js "previous_response_id"))) ;; Next (Some p)
     else Next None) ;;
  if is_empty text
  then returning (json (JObj [(js "error", JStr (js "Missing text"))]) 400)
  else if 1500 <? N.of_nat (List.length text)
  then returning (json (JObj [(js "error", JStr (js "Text too long"))]) 400)
  else Next (lang, text, previous_response_id).

(** Lines 69-91 of [POST]: the credential check and the outbound call. *)
Definition outbound (env : Env) (fields : jsstring * jsstring * option jsstring)
  : Ctl FetchCall :=
  let '(lang, text, previous_response_id) := fields in
  if missing (OPENAI_API_KEY env)
  then returning (json (JObj [(js "error", JStr (js "Server missing OPENAI_API_KEY"))]) 500)
  else
    let apiKey := or_else (OPENAI_API_KEY env) (js "") in
    let payload :=
      [ (js "model", JStr (or_else (OPENAI_MODEL env) (js "gpt-4.1")));
        (js "instructions", JStr (buildInstructions lang));
        (js "input", JStr text);
        (js "max_output_tokens", JNum (js "280"));
        (js "temperature", JNum (js "0.6"));
        (js "store", JBool false) ]
      ++ match previous_response_id with
         | Some p => if is_empty p then [] else [(js "previous_response_id", JStr p)]
         | None => []
         end in
    Next {| url := js "https://api.openai.com/v1/responses";
            method := js "POST";
            call_headers :=
              [ (js "authorization", js "Bearer " ++ apiKey);
                (js "content-type", js "application/json") ];
            payload := JObj payload |}.

(** Lines 93-99 of [POST]: what is made of the provider's answer. *)
Definition reply (o : FetchOutcome) : Ctl Response :=
  match o with
  | FetchRejects reason => Throw (Rejected reason)
  | FetchResponse st parsed =>
      let data := match parsed with Some d => d | None => JObj [] end in
      if negb (ok st)
      then returning (json (JObj [ (js "error", JStr (js "OpenAI error"));
                                   (js "status", JNum (decimal st));
                                   (js "details", data) ]) st)
      else
        tutorText <- lift (extractOutputText data) ;;
        returning (json (JObj [ (js "text", JStr tutorText);
                                (js "response_id", nullish (get data (js "id")) JNull) ]) 200)
  end.

(** The [catch] block of [POST]. *)
Definition server_error (rt : Runtime) (e : Thrown) : Thrown + Response :=
  json (JObj [ (js "error", JStr (js "Server error"));
               (js "details", JStr (message rt e)) ]) 500.

(** The statements of [POST] up to the [await fetch]. *)
Definition before_fetch (env : Env) (req : Request) : Ctl FetchCall :=
  _ <- authorize env req ;;
  fields <- validate req ;;
  outbound env fields.

Definition POST (rt : Runtime) (env : Env) (req : Request)
    (fetch : FetchCall -> FetchOutcome) : Outcome :=
  match before_fetch env req with
  | Next call =>
      {| result := try_catch (reply (fetch call)) (server_error rt);
         calls := [call] |}
  | Return r => {| result := inr r; calls := [] |}
  | Throw e => {| result := server_error rt e; calls := [] |}
  end.

End OpenAI.

(** ** The two variants side by side *)

Inductive Variant : Type := VariantA | VariantB.

Definition POST (v : Variant) : Runtime -> Env -> Request ->
    (FetchCall -> FetchOutcome) -> Outcome :=
  match v with
  | VariantA => Gemini.POST
  | VariantB => OpenAI.POST
  end.

Definition OPTIONS (v : Variant) : Thrown + Response :=
  match v with
  | VariantA => Gemini.OPTIONS
  | VariantB => OpenAI.OPTIONS
  end.

Definition response_headers (v : Variant) : Headers :=
  match v with
  | VariantA => Gemini.response_headers
  | VariantB => OpenAI.response_headers
  end.

Definition authorize (v : Variant) : Env -> Request -> Ctl unit :=
  match v with
  | VariantA => Gemini.authorize
  | VariantB => OpenAI.authorize
  end.

Definition before_fetch (v : Variant) (rt : Runtime) : Env -> Request -> Ctl FetchCall :=
  match v with
  | VariantA => Gemini.before_fetch rt
  | VariantB => OpenAI.before_fetch
  end.

(** The request body as each handler sees it after its tolerant parse. *)
Definition parsed_body (v : Variant) (rt : Runtime) (req : Request) : JsVal :=
  match v with
  | VariantA => Gemini.safeParseJson rt req
  | VariantB => match req_json req with Some b => b | None => JNull end
  end.

(** The request passes the handler's field extraction and text checks. *)
Definition validated (v : Variant) (rt : Runtime) (req : Request) : Prop :=
  match v with
  | VariantA => exists fields, Gemini.validate rt req = Next fields
  | VariantB => exists fields, OpenAI.validate req = Next fields
  end.

(** The provider credential each handler requires, and its name. *)
Definition credential (v : Variant) (env : Env) : option jsstring :=
  match v with
  | VariantA => GEMINI_API_KEY env
  | VariantB => OPENAI_API_KEY env
  end.

Definition credential_name (v : Variant) : jsstring :=
  match v with
  | VariantA => js "GEMINI_API_KEY"
  | VariantB => js "OPENAI_API_KEY"
  end.

Definition provider_name (v : Variant) : jsstring :=
  match v with
  | VariantA => js "Gemini"
  | VariantB => js "OpenAI"
  end.

(** The data a handler works with after [await r.json().catch(() => ({}))]. *)
Definition upstream_data (parsed : option JsVal) : JsVal :=
  match parsed with Some d => d | None => JObj [] end.

(** An error response of a handler. *)
Definition error_response (v : Variant) (st : Z) (fields : list (jsstring * JsVal)) : Response :=
  {| status := st; headers := response_headers v; body := JObj fields |}.

(** An upstream body of variant A with one candidate whose parts carry the
    given text fragments. *)
Definition one_candidate (fs : list jsstring) : JsVal :=
  JObj [(js "candidates",
         JArr [JObj [(js "content",
                      JObj [(js "parts",
                             JArr (map (fun f => JObj [(js "text", JStr f)]) fs))])]])].

(** An upstream body of variant B with one message item whose content
    carries the given fragments as output_text entries. *)
Definition one_message (fs : list jsstring) : JsVal :=
  JObj [(js "output",
         JArr [JObj [ (js "type", JStr (js "message"));
                      (js "content",
                       JArr (map (fun f => JObj [ (js "type", JStr (js "output_text"));
                                                  (js "text", JStr f) ]) fs)) ]])].

(** ** Concrete inputs used to exercise the statements *)

Module Sample.

Definition lower_unit (c : N) : N :=
  if (65 <=? c) && (c <=? 90) then c + 32 else c.

(** A runtime whose case mapping covers the ASCII letters, whose
    [JSON.parse] accepts nothing, and which has [crypto.randomUUID].  Its
    messages are those of Node on the source as written: V8's for the failing
    call of line 114 of route.ts (line 61 of the other file), for the first
    loop of [extractOutputText], for [String] and for [encodeURIComponent],
    and the two of the [Response] constructor. *)
Definition runtime : Runtime :=
  {| toLowerCase := map lower_unit;
     JSON_parse := fun _ => None;
     randomUUID := Some (js "0b0e7a52-6f0c-4c2e-9a55-3f1d2a7c9e10");
     now := 1793577600000;
     message_of := fun k =>
       match k with
       | NotCallable =>
           js "(body?.lang ?? " ++ [34] ++ js "es" ++ [34]
           ++ js ").toString is not a function"
       | CannotConvert => js "Cannot convert object to primitive value"
       | NotIterable => js "out is not iterable"
       | NullAccess => js "Cannot read properties of undefined (reading 'toString')"
       | URIMalformed => js "URI malformed"
       | StatusRange =>
           js "init[" ++ [34] ++ js "status" ++ [34]
           ++ js "] must be in the range of 200 to 599, inclusive."
       | NullBodyStatus st =>
           js "Response constructor: Invalid response status code " ++ decimal st
       end |}.

(** A deployment with both credentials and no shared secret. *)
Definition env : Env :=
  {| APP_TOKEN := None;
     GEMINI_API_KEY := Some (js "g-key");
     GEMINI_MODEL := None;
     OPENAI_API_KEY := Some (js "o-key");
     OPENAI_MODEL := None |}.

(** The same deployment without any provider credential. *)
Definition env_without_keys : Env :=
  {| APP_TOKEN := None;
     GEMINI_API_KEY := None;
     GEMINI_MODEL := None;
     OPENAI_API_KEY := None;
     OPENAI_MODEL := None |}.

Definition env_with_secret (secret : jsstring) : Env :=
  {| APP_TOKEN := Some secret;
     GEMINI_API_KEY := Some (js "g-key");
     GEMINI_MODEL := None;
     OPENAI_API_KEY := Some (js "o-key");
     OPENAI_MODEL := None |}.

(** A request with the given headers and JSON body. *)
Definition request (h : Headers) (b : JsVal) : Request :=
  {| req_headers := h; req_json := Some b; req_text := None |}.

(** A request whose body is not JSON. *)
Definition garbled (h : Headers) : Request :=
  {| req_headers := h; req_json := None; req_text := Some (js "{text:") |}.

Definition say (lang text : jsstring) : JsVal :=
  JObj [(js "lang", JStr lang); (js "text", JStr text)].

(** A provider that answers every call the same way. *)
Definition answers (st : Z) (b : JsVal) : FetchCall -> FetchOutcome :=
  fun _ => FetchResponse st (Some b).

(** The call a handler has prepared, when it got that far. *)
Definition prepared (c : Ctl FetchCall) : FetchCall :=
  match c with
  | Next call => call
  | _ => {| url := []; method := []; call_headers := []; payload := JNull |}
  end.

(** An object whose own [toString] property is the number 1. *)
Definition stubborn : JsVal := JObj [(js "toString", JNum (js "1"))].

Definition fragments_A : JsVal := one_candidate [js "Hola"; js "¿Cómo estás?"].

Definition fragments_B : JsVal := one_message [js "Hola"; js "¿Cómo estás?"].

End Sample.

(** ** Vocabulary of the statements *)

(** The CORS and content-type headers of the JSON contract. *)
Definition carries_contract_headers (h : Headers) : Prop :=
  headers_get h (js "access-control-allow-origin") = Some (js "*")
  /\ headers_get h (js "access-control-allow-headers") = Some (js "content-type, x-app-token")
  /\ headers_get h (js "access-control-allow-methods") = Some (js "POST, OPTIONS")
  /\ headers_get h (js "content-type") = Some (js "application/json; charset=utf-8").

(** A [return] inside the [try] block hands out a response built by [json]. *)
Definition returns_json {A : Type} (v : Variant) (c : Ctl A) : Prop :=
  match c with
  | Return r => headers r = response_headers v
  | _ => True
  end.

(** A block that never falls off its end. *)
Definition leaves {A : Type} (c : Ctl A) : Prop :=
  match c with
  | Next _ => False
  | _ => True
  end.

(** The fields a handler converts before it checks the text convert without
    throwing: [lang] for both variants, and a truthy [previous_response_id]
    for variant B. *)
Definition fields_convert (v : Variant) (b : JsVal) : Prop :=
  (exists l, toString (nullish (get b (js "lang")) (JStr (js "es"))) = inr l)
  /\ match v with
     | VariantA => True
     | VariantB =>
         truthy (get b (js "previous_response_id")) = true ->
         exists p, toString (get b (js "previous_response_id")) = inr p
     end.

(** The [text] field after [(body?.text ?? "").toString()]. *)
Definition text_field (b : JsVal) : Thrown + jsstring :=
  toString (nullish (get b (js "text")) (JStr (js ""))).

(** The same deployment with no shared secret configured. *)
Definition without_secret (env : Env) : Env :=
  {| APP_TOKEN := None;
     GEMINI_API_KEY := GEMINI_API_KEY env;
     GEMINI_MODEL := GEMINI_MODEL env;
     OPENAI_API_KEY := OPENAI_API_KEY env;
     OPENAI_MODEL := OPENAI_MODEL env |}.

(** The value of the x-app-token header as the handlers read it. *)
Definition sent_token (req : Request) : jsstring :=
  or_else (headers_get (req_headers req) (js "x-app-token")) (js "").

(** The 401 answer. *)
Definition unauthorized (v : Variant) : Outcome :=
  {| result := inr (error_response v 401 [(js "error", JStr (js "Unauthorized"))]);
     calls := [] |}.

(** A normalized selector indicates Italian: it is the code it, or it
    contains ital. *)
Definition marks_italian (sel : jsstring) : bool :=
  eqb sel (js "it") || includes sel (js "ital").

(** Whether a variant selects Italian for the string form of [lang]. *)
Definition selects_italian (v : Variant) (rt : Runtime) (langStr : jsstring) : bool :=
  match v with
  | VariantA => marks_italian (trim (toLowerCase rt langStr))
  | VariantB => eqb langStr (js "it")
  end.

(** The system instruction carried by an outbound call. *)
Definition instruction_sent (v : Variant) (call : FetchCall) : JsVal :=
  match v with
  | VariantA =>
      get (get0 (get (get (payload call) (js "system_instruction")) (js "parts"))) (js "text")
  | VariantB => get (payload call) (js "instructions")
  end.

(** The target language an instruction text names. *)
Definition names_italian (instr : jsstring) : bool :=
  includes instr (js "Idioma alvo: Italiano.").

Definition names_spanish (instr : jsstring) : bool :=
  includes instr (js "Idioma alvo: Espanhol (rioplatense neutro).").

(** A string made of white space only (possibly empty). *)
Definition blank (s : jsstring) : bool := forallb is_space s.

(** The same request with other headers. *)
Definition with_headers (req : Request) (h : Headers) : Request :=
  {| req_headers := h; req_json := req_json req; req_text := req_text req |}.

(** No shared secret is in force: variant A looks at the trimmed value,
    variant B at the value as configured. *)
Definition no_secret (v : Variant) (env : Env) : Prop :=
  match v with
  | VariantA => trim (or_else (APP_TOKEN env) (js "")) = []
  | VariantB => missing (APP_TOKEN env) = true
  end.

(** Every response a block [return]s satisfies [P]. *)
Definition returns {A : Type} (P : Response -> Prop) (c : Ctl A) : Prop :=
  match c with
  | Return r => P r
  | _ => True
  end.

(** The statuses of the responses built before the outbound call. *)
Definition early_status (r : Response) : Prop :=
  status r = 400%Z \/ status r = 401%Z \/ status r = 500%Z.

(** Values a [for ... of] loop cannot iterate: everything but arrays and
    strings.  After [?? []] that leaves booleans, numbers and objects. *)
Definition not_iterable (v : JsVal) : bool :=
  match v with
  | JArr _ | JStr _ => false
  | _ => true
  end.

(** An output item of variant B's provider that is a message whose content
    cannot be iterated. *)
Definition broken_message (item : JsVal) : bool :=
  OpenAI.is_literal (get item (js "type")) (js "message")
  && not_iterable (nullish (get item (js "content")) (JArr [])).

(** A history message as the client sends it: a role and a text. *)
Definition history_entry (role text : jsstring) : JsVal :=
  JObj [(js "role", JStr role); (js "text", JStr text)].

(** The provider role a client role is sent as. *)
Definition gemini_role (role : jsstring) : jsstring :=
  if eqb role (js "assistant") || eqb role (js "model") then js "model" else js "user".

(** An entry of the [contents] array as the provider expects it: a role that
    is user or model, and one text part that is not empty and carries no
    surrounding white space. *)
Definition well_formed_content (c : JsVal) : Prop :=
  exists role t,
    c = Gemini.content role t
    /\ (role = js "user" \/ role = js "model")
    /\ t <> []
    /\ trim t = t.

(** A history message whose text cannot be converted to a string. *)
Definition unconvertible_text (m : JsVal) : bool :=
  match toString (nullish (get m (js "text")) (JStr (js ""))) with
  | inl _ => true
  | inr _ => false
  end.

(** The user text carried by an outbound call: the text part of the last
    entry of [contents] in variant A, the [input] in variant B. *)
Definition text_sent (v : Variant) (call : FetchCall) : JsVal :=
  match v with
  | VariantA =>
      match get (payload call) (js "contents") with
      | JArr cs => get (get0 (get (last cs JUndefined) (js "parts"))) (js "text")
      | _ => JUndefined
      end
  | VariantB => get (payload call) (js "input")
  end.

(** The sampling temperature and the output limit carried by a call. *)
Definition generation_parameters (v : Variant) (call : FetchCall) : JsVal * JsVal :=
  match v with
  | VariantA =>
      (get (get (payload call) (js "generationConfig")) (js "temperature"),
       get (get (payload call) (js "generationConfig")) (js "maxOutputTokens"))
  | VariantB =>
      (get (payload call) (js "temperature"),
       get (payload call) (js "max_output_tokens"))
  end.

(** The name of the header that carries the credential, and its value for a
    given key. *)
Definition credential_header (v : Variant) : jsstring :=
  match v with
  | VariantA => js "x-goog-api-key"
  | VariantB => js "authorization"
  end.

Definition credential_value (v : Variant) (key : jsstring) : jsstring :=
  match v with
  | VariantA => trim key
  | VariantB => js "Bearer " ++ key
  end.

(** The key is usable: not empty, for variant A after trimming. *)
Definition usable_key (v : Variant) (key : jsstring) : Prop :=
  match v with
  | VariantA => trim key <> []
  | VariantB => key <> []
  end.

(** Every unit is a 16-bit code unit. *)
Definition units_ok (s : jsstring) : bool := forallb (fun c => c <? 65536) s.

(** Characters that cannot change the structure of a URL: the unreserved
    ones and the percent sign of an escape. *)
Definition url_safe (c : N) : bool := unreserved c || (c =? 37).

(** The text a part of a candidate contributes: its [text] when that is a
    non-empty string, nothing otherwise. *)
Definition part_fragment (p : JsVal) : list jsstring :=
  match get p (js "text") with
  | JStr (c :: t) => [c :: t]
  | _ => []
  end.

(** The text an entry of a message's content contributes: its [text] when
    the entry is an output_text with a string text, nothing otherwise. *)
Definition content_fragment (c : JsVal) : list jsstring :=
  match get c (js "type"), get c (js "text") with
  | JStr ty, JStr t => if eqb ty (js "output_text") then [t] else []
  | _, _ => []
  end.

(** The texts an output item contributes: those of its content when it is
    a message, nothing otherwise. *)
Definition item_fragments (item : JsVal) : list jsstring :=
  if OpenAI.is_literal (get item (js "type")) (js "message")
  then match iterate (nullish (get item (js "content")) (JArr [])) with
       | inr content => flat_map content_fragment content
       | inl _ => []
       end
  else [].

(** The response [json(data, st)] builds when the constructor accepts the
    status. *)
Definition json_response (v : Variant) (st : Z) (data : JsVal) : Response :=
  {| status := st; headers := response_headers v; body := stringified data |}.

(** [r] is what is left of the newline-joined fragments once the white
    space at both ends is taken off. *)
Definition trimmed_join (fs : list jsstring) (r : jsstring) : Prop :=
  exists pre post,
    join [10] fs = pre ++ r ++ post
    /\ blank pre = true
    /\ blank post = true
    /\ match r with [] => True | c :: _ => is_space c = false end
    /\ match rev r with [] => True | c :: _ => is_space c = false end.

(** * Properties *)

(** ** Strings *)

Lemma eqb_eq (a b : jsstring) : eqb a b = true <-> a = b.
Proof.
  unfold eqb. destruct (list_eq_dec N.eq_dec a b); split; congruence.
Qed.

Lemma eqb_neq (a b : jsstring) : eqb a b = false <-> a <> b.
Proof.
  unfold eqb. destruct (list_eq_dec N.eq_dec a b); split; congruence.
Qed.

Lemma eqb_refl (a : jsstring) : eqb a a = true.
Proof. now apply eqb_eq. Qed.

Lemma is_empty_nil (s : jsstring) : is_empty s = true <-> s = [].
Proof. destruct s; simpl; split; congruence. Qed.

Example js_ascii : js "it" = [105; 116].
Proof. reflexivity. Qed.

Example js_latin1 : js "¿Cómo estás?" =
  [191; 67; 243; 109; 111; 32; 101; 115; 116; 225; 115; 63].
Proof. reflexivity. Qed.

Example trim_example : trim (js "  a b
") = js "a b".
Proof. reflexivity. Qed.

Example decimal_examples :
  decimal 429 = js "429" /\ decimal 0 = js "0" /\ decimal (-15) = js "-15"
  /\ decimal 1000 = js "1000".
Proof. repeat split. Qed.

Example encodeURIComponent_examples :
  encodeURIComponent (js "gemini-2.0-flash") = inr (js "gemini-2.0-flash")
  /\ encodeURIComponent (js "a/b ç") = inr (js "a%2Fb%20%C3%A7")
  /\ encodeURIComponent [55357] = inl (EngineError URIMalformed).
Proof. repeat split. Qed.

Example ToString_examples :
  ToString (JArr [JNum (js "1"); JNull; JArr [JStr (js "a"); JBool true]]) = inr (js "1,,a,true")
  /\ ToString (JArr []) = inr (js "")
  /\ ToString (JObj []) = inr (js "[object Object]")
  /\ ToString (JArr [Sample.stubborn]) = inl (EngineError CannotConvert)
  /\ toString Sample.stubborn = inl (EngineError NotCallable).
Proof. repeat split. Qed.

(** ** Control flow *)

Lemma NextResponse_headers (d : JsVal) (st : Z) (h : Headers) (r : Response) :
  NextResponse d st h = inr r -> headers r = h /\ status r = st /\ body r = d.
Proof.
  unfold NextResponse.
  destruct ((st <? 200) || (599 <? st))%Z; [discriminate|].
  destruct (null_body_status st); [discriminate|].
  intros H; inversion H; subst; auto.
Qed.

Lemma NextResponse_accepts (d : JsVal) (st : Z) (h : Headers) :
  (200 <= st <= 599)%Z -> null_body_status st = false ->
  NextResponse d st h = inr {| status := st; headers := h; body := d |}.
Proof.
  intros [Hlo Hhi] Hnull. unfold NextResponse.
  replace ((st <? 200) || (599 <? st))%Z with false.
  - now rewrite Hnull.
  - symmetry. apply orb_false_iff. split; apply Z.ltb_ge; lia.
Qed.

Lemma returning_json {A : Type} (v : Variant) (d : JsVal) (st : Z) :
  returns_json v (@returning A (NextResponse d st (response_headers v)))
  /\ leaves (@returning A (NextResponse d st (response_headers v))).
Proof.
  unfold returning.
  destruct (NextResponse d st (response_headers v)) as [e|r] eqn:E; simpl; auto.
  split; auto. now apply NextResponse_headers in E.
Qed.

Lemma lift_returns_json {A : Type} (v : Variant) (c : Thrown + A) :
  returns_json v (lift c).
Proof. destruct c; exact I. Qed.

Lemma bind_returns_json {A B : Type} (v : Variant) (c : Ctl A) (k : A -> Ctl B) :
  returns_json v c -> (forall a, returns_json v (k a)) -> returns_json v (bind c k).
Proof. destruct c; simpl; auto. Qed.

Lemma bind_leaves {A B : Type} (c : Ctl A) (k : A -> Ctl B) :
  (forall a, leaves (k a)) -> leaves (bind c k).
Proof. destruct c; simpl; auto. Qed.

Ltac flow v :=
  repeat first
    [ apply (proj1 (returning_json v _ _))
    | apply (proj2 (returning_json v _ _))
    | apply lift_returns_json
    | exact I
    | apply bind_returns_json; [|intro]
    | apply bind_leaves; intro
    | match goal with
      | |- context [if ?b then _ else _] => destruct b
      | |- context [match ?x with Some _ => _ | None => _ end] => destruct x
      end ].

Lemma before_fetch_returns_json (v : Variant) (rt : Runtime) (env : Env) (req : Request) :
  returns_json v (before_fetch v rt env req).
Proof.
  destruct v; simpl.
  - unfold Gemini.before_fetch, Gemini.authorize, Gemini.validate, Gemini.json.
    apply bind_returns_json; [flow VariantA|intros _].
    apply bind_returns_json; [flow VariantA|intros [[lang text] history]].
    unfold Gemini.outbound, Gemini.json. flow VariantA.
  - unfold OpenAI.before_fetch, OpenAI.authorize, OpenAI.validate, OpenAI.json.
    apply bind_returns_json; [flow VariantB|intros _].
    apply bind_returns_json; [flow VariantB|intros [[lang text] prev]].
    unfold OpenAI.outbound, OpenAI.json. flow VariantB.
Qed.

Lemma Gemini_reply_leaves (rt : Runtime) (o : FetchOutcome) :
  returns_json VariantA (Gemini.reply rt o) /\ leaves (Gemini.reply rt o).
Proof.
  unfold Gemini.reply, Gemini.json. destruct o as [reason|st parsed]; [simpl; auto|].
  split; flow VariantA.
Qed.

Lemma OpenAI_reply_leaves (o : FetchOutcome) :
  returns_json VariantB (OpenAI.reply o) /\ leaves (OpenAI.reply o).
Proof.
  unfold OpenAI.reply, OpenAI.json. destruct o as [reason|st parsed]; [simpl; auto|].
  split; flow VariantB.
Qed.

Lemma server_error_responds (v : Variant) (rt : Runtime) (e : Thrown) :
  (match v with
   | VariantA => Gemini.server_error rt e
   | VariantB => OpenAI.server_error rt e
   end)
  = inr (error_response v 500
           [ (js "error", JStr (js "Server error"));
             (js "details", JStr (message rt e)) ]).
Proof. destruct v; reflexivity. Qed.

Lemma try_catch_responds (v : Variant) (rt : Runtime) (block : Ctl Response) :
  returns_json v block -> leaves block ->
  exists r,
    try_catch block
      (match v with
       | VariantA => Gemini.server_error rt
       | VariantB => OpenAI.server_error rt
       end) = inr r
    /\ headers r = response_headers v.
Proof.
  destruct block as [r|r|e]; simpl; intros Hj Hl.
  - contradiction.
  - now exists r.
  - pose proof (server_error_responds v rt e) as H. destruct v; rewrite H; eauto.
Qed.

(** The handler never rejects: whatever the request, the deployment and the
    provider do, [POST] resolves to a response built by [json]. *)
Lemma POST_responds (v : Variant) (rt : Runtime) (env : Env) (req : Request)
    (fetch : FetchCall -> FetchOutcome) :
  exists r, result (POST v rt env req fetch) = inr r /\ headers r = response_headers v.
Proof.
  pose proof (before_fetch_returns_json v rt env req) as Hb.
  destruct v; simpl in *.
  - unfold Gemini.POST. destruct (Gemini.before_fetch rt env req) as [call|r|e]; simpl.
    + destruct (Gemini_reply_leaves rt (fetch call)) as [Hj Hl].
      exact (try_catch_responds VariantA rt _ Hj Hl).
    + eauto.
    + rewrite (server_error_responds VariantA rt e). eauto.
  - unfold OpenAI.POST. destruct (OpenAI.before_fetch env req) as [call|r|e]; simpl.
    + destruct (OpenAI_reply_leaves (fetch call)) as [Hj Hl].
      exact (try_catch_responds VariantB rt _ Hj Hl).
    + eauto.
    + rewrite (server_error_responds VariantB rt e). eauto.
Qed.

(** ** C10: the headers of every response *)

(** C10. Every response of either handler, the OPTIONS reply and every POST
    reply whatever its status, carries the four contract headers
    (access-control-allow-origin, access-control-allow-headers,
    access-control-allow-methods, content-type); variant A carries
    cache-control: no-store on every one of them as well. *)
Theorem C10_every_response_carries_the_headers
    (v : Variant) (rt : Runtime) (env : Env) (req : Request)
    (fetch : FetchCall -> FetchOutcome) :
  (exists r, result (POST v rt env req fetch) = inr r
             /\ headers r = response_headers v)
  /\ (exists r, OPTIONS v = inr r /\ status r = 200%Z
                /\ headers r = response_headers v)
  /\ carries_contract_headers (response_headers v)
  /\ headers_get (response_headers VariantA) (js "cache-control") = Some (js "no-store").
Proof.
  split; [apply POST_responds|].
  split; [destruct v; eexists; repeat split|].
  split; [destruct v; repeat split|reflexivity].
Qed.

(** ** Trimming *)

Arguments is_space : simpl never.

Lemma trimStart_blank (s : jsstring) : blank s = true -> trimStart s = [].
Proof.
  induction s as [|c t IH]; simpl; [reflexivity|].
  intros H. apply andb_true_iff in H. destruct H as [Hc Ht]. rewrite Hc. auto.
Qed.

Lemma trimStart_head (s : jsstring) (c : N) (t : jsstring) :
  trimStart s = c :: t -> is_space c = false.
Proof.
  induction s as [|a s IH]; simpl; [discriminate|].
  destruct (is_space a) eqn:E; [exact IH|].
  intros H. injection H as <- _. exact E.
Qed.

Lemma trimStart_fixed (s : jsstring) :
  match s with [] => True | c :: _ => is_space c = false end -> trimStart s = s.
Proof. destruct s as [|c t]; simpl; [reflexivity|]. now intros ->. Qed.

Lemma trimStart_idempotent (s : jsstring) : trimStart (trimStart s) = trimStart s.
Proof.
  apply trimStart_fixed. destruct (trimStart s) as [|c t] eqn:E; [exact I|].
  exact (trimStart_head s c t E).
Qed.

Lemma trimStart_split (s : jsstring) :
  exists ws, s = ws ++ trimStart s /\ blank ws = true.
Proof.
  induction s as [|c t [ws [Hs Hb]]]; simpl.
  - exists []. auto.
  - destruct (is_space c) eqn:E.
    + exists (c :: ws). simpl. rewrite E, Hb. split; [now rewrite <- Hs|reflexivity].
    + exists []. auto.
Qed.

(** What [trimEnd] removes is a suffix. *)
Lemma trimEnd_split (s : jsstring) : exists ws, s = trimEnd s ++ ws.
Proof.
  unfold trimEnd. destruct (trimStart_split (rev s)) as [ws [Hs _]].
  exists (rev ws). rewrite <- rev_app_distr, <- Hs. now rewrite rev_involutive.
Qed.

(** A trimmed string has no white space left at either end. *)
Lemma trim_trimmed (s : jsstring) :
  trimStart (trim s) = trim s /\ trimEnd (trim s) = trim s.
Proof.
  unfold trim. split.
  - apply trimStart_fixed.
    destruct (trimEnd_split (trimStart s)) as [ws Hs].
    destruct (trimEnd (trimStart s)) as [|c t]; [exact I|].
    apply (trimStart_head s c (t ++ ws)). exact Hs.
  - unfold trimEnd at 1 2. now rewrite rev_involutive, trimStart_idempotent.
Qed.

Lemma trim_idempotent (s : jsstring) : trim (trim s) = trim s.
Proof.
  destruct (trim_trimmed s) as [H1 H2]. unfold trim at 1. now rewrite H1.
Qed.

Lemma trim_blank (s : jsstring) : blank s = true -> trim s = [].
Proof. intros H. unfold trim. now rewrite (trimStart_blank s H). Qed.

(** What [trim] takes off is white space at both ends, and nothing of it is
    left there. *)
Lemma trim_takes_off_the_ends (s : jsstring) :
  exists pre post,
    s = pre ++ trim s ++ post
    /\ blank pre = true
    /\ blank post = true
    /\ match trim s with [] => True | c :: _ => is_space c = false end
    /\ match rev (trim s) with [] => True | c :: _ => is_space c = false end.
Proof.
  destruct (trimStart_split s) as [pre [Hs Hpre]].
  destruct (trimStart_split (rev (trimStart s))) as [ws [Hr Hws]].
  exists pre, (rev ws). split; [|split; [exact Hpre|split]].
  - rewrite Hs at 1. f_equal. unfold trim, trimEnd.
    rewrite <- rev_app_distr, <- Hr. now rewrite rev_involutive.
  - unfold blank in *. rewrite forallb_forall in *. intros x Hx. apply Hws. now apply in_rev.
  - destruct (trim_trimmed s) as [H1 _]. split.
    + destruct (trim s) as [|c t] eqn:E; [exact I|]. exact (trimStart_head _ c t H1).
    + unfold trim, trimEnd. rewrite rev_involutive.
      destruct (trimStart (rev (trimStart s))) as [|c t] eqn:E; [exact I|].
      exact (trimStart_head _ c t E).
Qed.

(** ** C9: the extractors on two text fragments *)

(** Variant A keeps the non-empty string fragments of the parts, in order. *)
Lemma part_texts_of_fragments (fs : list jsstring) :
  Forall (fun f => f <> []) fs ->
  Gemini.part_texts (map (fun f => JObj [(js "text", JStr f)]) fs) = fs.
Proof.
  induction 1 as [|f fs Hf _ IH]; simpl; [reflexivity|].
  change (get (JObj [(js "text", JStr f)]) (js "text")) with (JStr f).
  simpl. destruct f as [|c f]; [congruence|]. simpl. now rewrite IH.
Qed.

(** Variant B keeps the string fragments of the output_text entries, in order. *)
Lemma content_texts_of_fragments (fs : list jsstring) :
  OpenAI.content_texts
    (map (fun f => JObj [(js "type", JStr (js "output_text")); (js "text", JStr f)]) fs)
  = fs.
Proof.
  induction fs as [|f fs IH]; simpl; [reflexivity|].
  change (get (JObj [(js "type", JStr (js "output_text")); (js "text", JStr f)]) (js "type"))
    with (JStr (js "output_text")).
  change (get (JObj [(js "type", JStr (js "output_text")); (js "text", JStr f)]) (js "text"))
    with (JStr f).
  simpl. now rewrite IH.
Qed.

(** Variant A on one candidate: the non-empty fragments joined by newlines,
    trimmed. *)
Lemma Gemini_extract_fragments (fs : list jsstring) :
  Forall (fun f => f <> []) fs ->
  Gemini.extractTextFromGemini (one_candidate fs) = trim (join [10] fs).
Proof.
  intros H. unfold Gemini.extractTextFromGemini, one_candidate.
  change (get0 (get (JObj [(js "candidates", JArr [?c])]) (js "candidates"))) with c.
  change (get (get (JObj [(js "content", JObj [(js "parts", ?ps)])]) (js "content"))
            (js "parts")) with ps.
  simpl isArray. cbv iota. now rewrite part_texts_of_fragments.
Qed.

(** Variant B on one message item: the fragments joined by newlines,
    trimmed. *)
Lemma OpenAI_extract_fragments (fs : list jsstring) :
  OpenAI.extractOutputText (one_message fs) = inr (trim (join [10] fs)).
Proof.
  unfold OpenAI.extractOutputText, one_message.
  change (get (JObj [(js "output", ?x)]) (js "output")) with x.
  cbn [nullish iterate bindE OpenAI.output_texts].
  change (get (JObj [(js "type", ?x); (js "content", ?y)]) (js "type")) with x.
  change (get (JObj [(js "type", ?x); (js "content", ?y)]) (js "content")) with y.
  change (OpenAI.is_literal (JStr (js "message")) (js "message")) with true.
  cbn [negb nullish iterate bindE].
  rewrite content_texts_of_fragments, app_nil_r. reflexivity.
Qed.

(** C9. On an upstream body with one candidate (variant A) or one message
    item (variant B) carrying text fragments, each extractor returns the
    fragments joined by newlines, in order, with the white space at both ends
    of the result taken off; for the fragments Hola and ¿Cómo estás? that is
    Hola, a newline, ¿Cómo estás?.  (Variant A skips empty fragments, so its
    fragments are taken non-empty.) *)
Theorem C9_extractors_join_the_fragments (fs : list jsstring) :
  (Forall (fun f => f <> []) fs ->
   trimmed_join fs (Gemini.extractTextFromGemini (one_candidate fs)))
  /\ (exists r, OpenAI.extractOutputText (one_message fs) = inr r /\ trimmed_join fs r)
  /\ Gemini.extractTextFromGemini (one_candidate [js "Hola"; js "¿Cómo estás?"])
     = js "Hola" ++ [10] ++ js "¿Cómo estás?"
  /\ OpenAI.extractOutputText (one_message [js "Hola"; js "¿Cómo estás?"])
     = inr (js "Hola" ++ [10] ++ js "¿Cómo estás?").
Proof.
  split; [|split; [|split]].
  - intros H. rewrite (Gemini_extract_fragments fs H). apply trim_takes_off_the_ends.
  - exists (trim (join [10] fs)). split; [apply OpenAI_extract_fragments|].
    apply trim_takes_off_the_ends.
  - rewrite Gemini_extract_fragments; [reflexivity|].
    repeat constructor; discriminate.
  - rewrite OpenAI_extract_fragments. reflexivity.
Qed.

Lemma C9_witness :
  let fs := [js " Hola"; js "amigo" ++ [10]] in
  Forall (fun f => f <> []) fs
  /\ trimmed_join fs (Gemini.extractTextFromGemini (one_candidate fs))
  /\ Gemini.extractTextFromGemini (one_candidate fs) = js "Hola" ++ [10] ++ js "amigo".
Proof.
  intro fs.
  assert (H : Forall (fun f => f <> []) fs)
    by (repeat constructor; vm_compute; discriminate).
  split; [exact H|]. split.
  - exact (proj1 (C9_extractors_join_the_fragments fs) H).
  - vm_compute. reflexivity.
Defined.

(** ** C8: a body that is not JSON *)

Lemma authorize_reads_headers (v : Variant) (env : Env) (req req' : Request) :
  req_headers req' = req_headers req -> authorize v env req' = authorize v env req.
Proof.
  intros H. destruct v; simpl; unfold Gemini.authorize, OpenAI.authorize; now rewrite H.
Qed.

Lemma unparseable_body_is_null (v : Variant) (rt : Runtime) (req : Request) :
  req_json req = None ->
  (forall t, req_text req = Some t -> JSON_parse rt t = None) ->
  parsed_body v rt req = JNull.
Proof.
  intros Hj Ht. destruct v; simpl; [unfold Gemini.safeParseJson|]; rewrite Hj; [|reflexivity].
  destruct (req_text req) as [t|]; [|reflexivity].
  destruct (is_empty t); [reflexivity|]. now rewrite (Ht t eq_refl).
Qed.

(** What [POST] does once the body is known to carry no [text]. *)
Lemma POST_without_text (v : Variant) (rt : Runtime) (env : Env) (req : Request)
    (fetch : FetchCall -> FetchOutcome) (b : JsVal) :
  authorize v env req = Next tt ->
  parsed_body v rt req = b ->
  b = JNull \/ b = JObj [] ->
  POST v rt env req fetch
  = {| result := inr (error_response v 400 [(js "error", JStr (js "Missing text"))]);
       calls := [] |}.
Proof.
  intros Ha Hb Hcase. destruct v; simpl in *.
  - unfold Gemini.POST, Gemini.before_fetch. rewrite Ha. simpl.
    unfold Gemini.validate. rewrite Hb. destruct Hcase as [->| ->]; reflexivity.
  - unfold OpenAI.POST, OpenAI.before_fetch. rewrite Ha. simpl.
    unfold OpenAI.validate. rewrite Hb. destruct Hcase as [->| ->]; reflexivity.
Qed.

(** C8. A request body that fails to parse as JSON is not rejected as such:
    the handler goes on with every field absent and, when authorization
    passes, answers 400 Missing text, exactly as it does for an empty
    object sent with the same headers. *)
Theorem C8_unparseable_body_is_an_empty_request
    (v : Variant) (rt : Runtime) (env : Env) (req : Request)
    (fetch : FetchCall -> FetchOutcome) :
  req_json req = None ->
  (forall t, req_text req = Some t -> JSON_parse rt t = None) ->
  authorize v env req = Next tt ->
  (forall k, get (parsed_body v rt req) k = JUndefined)
  /\ POST v rt env req fetch
     = {| result := inr (error_response v 400 [(js "error", JStr (js "Missing text"))]);
          calls := [] |}
  /\ POST v rt env (Sample.request (req_headers req) (JObj [])) fetch
     = POST v rt env req fetch.
Proof.
  intros Hj Ht Ha.
  pose proof (unparseable_body_is_null v rt req Hj Ht) as Hnull.
  split; [intro k; now rewrite Hnull|].
  assert (Hreq : POST v rt env req fetch
                 = {| result := inr (error_response v 400
                                       [(js "error", JStr (js "Missing text"))]);
                      calls := [] |}).
  { apply (POST_without_text v rt env req fetch JNull); auto. }
  split; [exact Hreq|]. rewrite Hreq.
  apply (POST_without_text v rt env _ fetch (JObj [])).
  - rewrite (authorize_reads_headers v env req); [exact Ha|reflexivity].
  - destruct v; reflexivity.
  - now right.
Qed.

Lemma C8_witness :
  POST VariantA Sample.runtime Sample.env (Sample.garbled []) (Sample.answers 200 (JObj []))
  = {| result := inr (error_response VariantA 400 [(js "error", JStr (js "Missing text"))]);
       calls := [] |}
  /\ POST VariantB Sample.runtime Sample.env (Sample.garbled []) (Sample.answers 200 (JObj []))
     = {| result := inr (error_response VariantB 400 [(js "error", JStr (js "Missing text"))]);
          calls := [] |}.
Proof.
  split.
  - apply (C8_unparseable_body_is_an_empty_request VariantA Sample.runtime Sample.env
             (Sample.garbled []) (Sample.answers 200 (JObj []))).
    + reflexivity.
    + intros t _. reflexivity.
    + reflexivity.
  - apply (C8_unparseable_body_is_an_empty_request VariantB Sample.runtime Sample.env
             (Sample.garbled []) (Sample.answers 200 (JObj []))).
    + reflexivity.
    + intros t _. reflexivity.
    + reflexivity.
Defined.

(** ** C6: a missing provider credential *)

(** C6. When a request has passed authorization and validation and the
    provider credential of the variant is absent from the configuration, the
    handler answers 500 with an error naming that credential and issues no
    outbound call. *)
Theorem C6_missing_credential_is_a_500_without_a_call
    (v : Variant) (rt : Runtime) (env : Env) (req : Request)
    (fetch : FetchCall -> FetchOutcome) :
  authorize v env req = Next tt ->
  validated v rt req ->
  credential v env = None ->
  POST v rt env req fetch
  = {| result := inr (error_response v 500
                        [(js "error", JStr (js "Server missing " ++ credential_name v))]);
       calls := [] |}.
Proof.
  intros Ha Hv Hc. destruct v; simpl in *.
  - destruct Hv as [[[lang text] history] Hv].
    unfold Gemini.POST, Gemini.before_fetch. rewrite Ha. simpl. rewrite Hv. simpl.
    rewrite Hc. reflexivity.
  - destruct Hv as [[[lang text] prev] Hv].
    unfold OpenAI.POST, OpenAI.before_fetch. rewrite Ha. simpl. rewrite Hv. simpl.
    rewrite Hc. reflexivity.
Qed.

Lemma C6_witness :
  POST VariantA Sample.runtime Sample.env_without_keys
    (Sample.request [] (Sample.say (js "it") (js "ciao"))) (Sample.answers 200 (JObj []))
  = {| result := inr (error_response VariantA 500
                        [(js "error", JStr (js "Server missing GEMINI_API_KEY"))]);
       calls := [] |}
  /\ POST VariantB Sample.runtime Sample.env_without_keys
       (Sample.request [] (Sample.say (js "it") (js "ciao"))) (Sample.answers 200 (JObj []))
     = {| result := inr (error_response VariantB 500
                           [(js "error", JStr (js "Server missing OPENAI_API_KEY"))]);
          calls := [] |}.
Proof.
  split.
  - apply (C6_missing_credential_is_a_500_without_a_call VariantA).
    + reflexivity.
    + eexists. reflexivity.
    + reflexivity.
  - apply (C6_missing_credential_is_a_500_without_a_call VariantB).
    + reflexivity.
    + eexists. reflexivity.
    + reflexivity.
Defined.

(** ** C7: the bound on the text *)

Lemma Gemini_validate_converted (rt : Runtime) (req : Request) (l s : jsstring) :
  toString (nullish (get (Gemini.safeParseJson rt req) (js "lang")) (JStr (js "es"))) = inr l ->
  text_field (Gemini.safeParseJson rt req) = inr s ->
  Gemini.validate rt req
  = if is_empty (trim s)
    then Return (error_response VariantA 400 [(js "error", JStr (js "Missing text"))])
    else if 1500 <? N.of_nat (List.length (trim s))
    then Return (error_response VariantA 400 [(js "error", JStr (js "Text too long"))])
    else Next (Gemini.normalizeLang rt l, trim s,
               get (Gemini.safeParseJson rt req) (js "history")).
Proof.
  unfold text_field, Gemini.validate. intros -> ->. reflexivity.
Qed.

Lemma OpenAI_validate_converted (req : Request) (b : JsVal) (l s : jsstring) :
  b = match req_json req with Some b => b | None => JNull end ->
  toString (nullish (get b (js "lang")) (JStr (js "es"))) = inr l ->
  text_field b = inr s ->
  (truthy (get b (js "previous_response_id")) = true ->
   exists p, toString (get b (js "previous_response_id")) = inr p) ->
  exists prev,
    OpenAI.validate req
    = if is_empty (trim s)
      then Return (error_response VariantB 400 [(js "error", JStr (js "Missing text"))])
      else if 1500 <? N.of_nat (List.length (trim s))
      then Return (error_response VariantB 400 [(js "error", JStr (js "Text too long"))])
      else Next (l, trim s, prev).
Proof.
  unfold text_field, OpenAI.validate. intros Hb Hl Hs Hp. rewrite <- Hb, Hl, Hs. simpl.
  destruct (truthy (get b (js "previous_response_id"))).
  - destruct (Hp eq_refl) as [p ->]. exists (Some p). reflexivity.
  - exists None. reflexivity.
Qed.

Lemma long_text_not_empty (s : jsstring) :
  1500 < N.of_nat (List.length s) -> is_empty s = false.
Proof. destruct s; simpl; [lia|reflexivity]. Qed.

Lemma short_text_not_empty (s : jsstring) :
  1 <= N.of_nat (List.length s) -> is_empty s = false.
Proof. destruct s; simpl; [lia|reflexivity]. Qed.

(** C7, as the code has it. For both variants, given that authorization
    passes and that the fields converted ahead of the text check convert
    without throwing, a body whose text is longer than 1500 code units after
    trimming is answered 400 Text too long, with no outbound call; a trimmed
    text of 1 to 1500 code units passes validation. *)
Theorem C7_text_longer_than_1500_is_rejected
    (v : Variant) (rt : Runtime) (env : Env) (req : Request)
    (fetch : FetchCall -> FetchOutcome) (s : jsstring) :
  authorize v env req = Next tt ->
  fields_convert v (parsed_body v rt req) ->
  text_field (parsed_body v rt req) = inr s ->
  (1500 < N.of_nat (List.length (trim s)) ->
   POST v rt env req fetch
   = {| result := inr (error_response v 400 [(js "error", JStr (js "Text too long"))]);
        calls := [] |})
  /\ (1 <= N.of_nat (List.length (trim s)) <= 1500 -> validated v rt req).
Proof.
  intros Ha [[l Hl] Hprev] Hs. destruct v; simpl in *.
  - pose proof (Gemini_validate_converted rt req l s Hl Hs) as Hv. split.
    + intros Hlen. unfold Gemini.POST, Gemini.before_fetch. rewrite Ha. simpl.
      rewrite Hv, (long_text_not_empty _ Hlen).
      apply N.ltb_lt in Hlen. rewrite Hlen. reflexivity.
    + intros [Hlo Hhi]. rewrite Hv, (short_text_not_empty _ Hlo).
      replace (1500 <? N.of_nat (List.length (trim s))) with false
        by (symmetry; apply N.ltb_ge; exact Hhi).
      eexists. reflexivity.
  - destruct (OpenAI_validate_converted req _ l s eq_refl Hl Hs Hprev) as [prev Hv]. split.
    + intros Hlen. unfold OpenAI.POST, OpenAI.before_fetch. rewrite Ha. simpl.
      rewrite Hv, (long_text_not_empty _ Hlen).
      apply N.ltb_lt in Hlen. rewrite Hlen. reflexivity.
    + intros [Hlo Hhi]. rewrite Hv, (short_text_not_empty _ Hlo).
      replace (1500 <? N.of_nat (List.length (trim s))) with false
        by (symmetry; apply N.ltb_ge; exact Hhi).
      eexists. reflexivity.
Qed.

Lemma C7_witness :
  POST VariantA Sample.runtime Sample.env
    (Sample.request [] (Sample.say (js "it") (repeat 97 1501)))
    (Sample.answers 200 (JObj []))
  = {| result := inr (error_response VariantA 400 [(js "error", JStr (js "Text too long"))]);
       calls := [] |}
  /\ validated VariantB Sample.runtime
       (Sample.request [] (Sample.say (js "it") (repeat 97 1500))).
Proof.
  split.
  - apply (C7_text_longer_than_1500_is_rejected VariantA Sample.runtime Sample.env
             (Sample.request [] (Sample.say (js "it") (repeat 97 1501)))
             (Sample.answers 200 (JObj [])) (repeat 97 1501)).
    + reflexivity.
    + split; [eexists; reflexivity|exact I].
    + reflexivity.
    + vm_compute. reflexivity.
  - apply (C7_text_longer_than_1500_is_rejected VariantB Sample.runtime Sample.env
             (Sample.request [] (Sample.say (js "it") (repeat 97 1500)))
             (Sample.answers 200 (JObj [])) (repeat 97 1500)).
    + reflexivity.
    + split; [eexists; reflexivity|]. simpl. discriminate.
    + reflexivity.
    + vm_compute. split; discriminate.
Defined.

(** C7 as stated fails: with authorization passing and a text of 1501
    characters, a [lang] that is an object with an own [toString] property
    makes line 114 throw before the text is looked at, and the handler
    answers 500 Server error instead of 400. *)
Lemma C7_counterexample :
  let req := Sample.request []
               (JObj [(js "lang", Sample.stubborn); (js "text", JStr (repeat 97 1501))]) in
  authorize VariantA Sample.env req = Next tt
  /\ text_field (parsed_body VariantA Sample.runtime req) = inr (repeat 97 1501)
  /\ N.of_nat (List.length (trim (repeat 97 1501))) = 1501
  /\ exists details,
       POST VariantA Sample.runtime Sample.env req (Sample.answers 200 (JObj []))
       = {| result := inr (error_response VariantA 500
                             [ (js "error", JStr (js "Server error"));
                               (js "details", JStr details) ]);
            calls := [] |}.
Proof.
  vm_compute. split; [reflexivity|]. split; [reflexivity|]. split; [reflexivity|].
  eexists. reflexivity.
Qed.

(** ** Serialization *)

Lemma JsVal_nested_ind (P : JsVal -> Prop) :
  P JUndefined -> P JNull -> (forall b, P (JBool b)) -> (forall r, P (JNum r)) ->
  (forall s, P (JStr s)) ->
  (forall items, Forall P items -> P (JArr items)) ->
  (forall props, Forall (fun kv => P (snd kv)) props -> P (JObj props)) ->
  forall v, P v.
Proof.
  intros Hu Hn Hb Hr Hs Ha Ho. fix IH 1. intros [| |b|r|s|items|props].
  - exact Hu.
  - exact Hn.
  - apply Hb.
  - apply Hr.
  - apply Hs.
  - apply Ha. induction items as [|x rest IHl]; constructor; [apply IH|exact IHl].
  - apply Ho. induction props as [|[k x] rest IHl]; constructor; [apply IH|exact IHl].
Qed.

(** [JSON.stringify] writes a value without non-finite numbers and without
    undefined as it is. *)
Lemma stringified_finite (v : JsVal) : finite_json v = true -> stringified v = v.
Proof.
  induction v as [| |b|r|s|items IH|props IH] using JsVal_nested_ind;
    simpl; intros Hf; try reflexivity; try discriminate.
  - destruct (non_finite r); [discriminate|reflexivity].
  - f_equal. induction IH as [|x rest Hx _ IHrest]; [reflexivity|].
    apply andb_true_iff in Hf. destruct Hf as [Hfx Hfr].
    rewrite (IHrest Hfr). f_equal.
    destruct x; try discriminate Hfx; exact (Hx Hfx).
  - f_equal. induction IH as [|[k x] rest Hx _ IHrest]; [reflexivity|].
    apply andb_true_iff in Hf. destruct Hf as [Hfx Hfr]. simpl in Hx.
    assert (Hm : stringified x = x) by exact (Hx Hfx).
    destruct x; try discriminate Hfx; rewrite (IHrest Hfr);
      first [rewrite <- Hm at 2; reflexivity | reflexivity].
Qed.

Lemma digits_start_with_a_digit (fuel : nat) (n d : N) (rest : jsstring) :
  d < 10 ->
  exists d' rest', digits_fuel fuel n ((48 + d) :: rest) = (48 + d') :: rest' /\ d' < 10.
Proof.
  revert n d rest. induction fuel as [|fuel IH]; intros n d rest Hd; simpl.
  - eauto.
  - destruct (n <? 10).
    + exists (n mod 10), ((48 + d) :: rest). split; [reflexivity|].
      apply N.mod_lt. discriminate.
    + apply IH. apply N.mod_lt. discriminate.
Qed.

(** The rendering of an integer is the text of a finite number. *)
Lemma decimal_finite (z : Z) : non_finite (decimal z) = false.
Proof.
  unfold decimal.
  assert (H : exists d rest,
             digits_fuel (S (N.to_nat (N.log2 (Z.abs_N z)))) (Z.abs_N z) []
             = (48 + d) :: rest /\ d < 10).
  { cbn [digits_fuel]. destruct (Z.abs_N z <? 10).
    - exists (Z.abs_N z mod 10), []. split; [reflexivity|]. apply N.mod_lt. discriminate.
    - apply digits_start_with_a_digit. apply N.mod_lt. discriminate. }
  destruct H as [d [rest [-> Hd]]].
  assert (Hc : 48 <= 48 + d < 58) by lia.
  generalize dependent (48 + d). intros c Hc.
  unfold non_finite.
  destruct (z <? 0)%Z; repeat (apply orb_false_iff; split); apply eqb_neq;
    intros H; vm_compute in H; injection H; intros; subst; lia.
Qed.

(** The fields of a body with an error, a second field and the details. *)
Lemma body_with_details (v : Variant) (st : Z) (e : jsstring)
    (k : jsstring) (x : JsVal) (data : JsVal) :
  eqb k (js "error") = false -> eqb (js "details") k = false ->
  stringified x = x -> x <> JUndefined ->
  let r := json_response v st (JObj [ (js "error", JStr e); (k, x); (js "details", data) ]) in
  get (body r) (js "error") = JStr e
  /\ get (body r) k = x
  /\ get (body r) (js "details") = stringified data
  /\ (finite_json data = true -> get (body r) (js "details") = data).
Proof.
  intros Hk1 Hk2 Hx Hxu r.
  assert (Hd : get (body r) (js "details") = stringified data).
  { unfold r, json_response, body, get.
    destruct x; try congruence; simpl; rewrite ?Hk2;
      destruct data; simpl; rewrite ?eqb_refl; reflexivity. }
  split; [|split; [|split]].
  - unfold r, json_response, body, get.
    destruct x; try congruence; reflexivity.
  - unfold r, json_response, body, get.
    destruct x; try congruence; simpl; rewrite Hk1, eqb_refl;
      first [exact Hx | reflexivity].
  - exact Hd.
  - intros Hf. rewrite Hd. now apply stringified_finite.
Qed.

(** ** C5: a non-2xx answer of the provider *)

Lemma not_ok_in_range_has_body (st : Z) :
  ok st = false -> (200 <= st <= 599)%Z -> st <> 304%Z -> null_body_status st = false.
Proof.
  unfold ok, null_body_status. intros Hok [Hlo Hhi] H304.
  apply andb_false_iff in Hok.
  repeat (apply orb_false_iff; split); apply Z.eqb_neq; lia.
Qed.

(** C5, as the code has it. For both variants, a non-2xx upstream status
    never makes the handler throw; when that status is one the Response
    constructor accepts with a body (200..599 and not 304), the response has
    the upstream status, an error naming the provider, the status again, and
    as details the upstream JSON body (an empty object when that body does not
    parse) as [JSON.stringify] writes it: unchanged when it holds no
    non-finite number, and with null in place of each non-finite number
    otherwise. *)
Theorem C5_upstream_error_is_passed_through
    (v : Variant) (rt : Runtime) (env : Env) (req : Request)
    (fetch : FetchCall -> FetchOutcome) (call : FetchCall)
    (st : Z) (parsed : option JsVal) :
  before_fetch v rt env req = Next call ->
  fetch call = FetchResponse st parsed ->
  ok st = false ->
  (exists r, result (POST v rt env req fetch) = inr r)
  /\ ((200 <= st <= 599)%Z -> st <> 304%Z ->
      let r := json_response v st
                 (JObj [ (js "error", JStr (provider_name v ++ js " error"));
                         (js "status", JNum (decimal st));
                         (js "details", upstream_data parsed) ]) in
      POST v rt env req fetch = {| result := inr r; calls := [call] |}
      /\ get (body r) (js "error") = JStr (provider_name v ++ js " error")
      /\ get (body r) (js "status") = JNum (decimal st)
      /\ get (body r) (js "details") = stringified (upstream_data parsed)
      /\ (finite_json (upstream_data parsed) = true ->
          get (body r) (js "details") = upstream_data parsed)).
Proof.
  intros Hb Hf Hok. split.
  - destruct (POST_responds v rt env req fetch) as [r [Hr _]]. eauto.
  - intros Hrange H304 r.
    pose proof (not_ok_in_range_has_body st Hok Hrange H304) as Hnull.
    split.
    + destruct v; simpl in Hb.
      * simpl POST. unfold Gemini.POST. rewrite Hb, Hf. unfold Gemini.reply.
        rewrite Hok. simpl negb. cbv iota. unfold Gemini.json.
        rewrite (NextResponse_accepts _ st _ Hrange Hnull). reflexivity.
      * simpl POST. unfold OpenAI.POST. rewrite Hb, Hf. unfold OpenAI.reply.
        rewrite Hok. simpl negb. cbv iota. unfold OpenAI.json.
        rewrite (NextResponse_accepts _ st _ Hrange Hnull). reflexivity.
    + apply body_with_details; try reflexivity; [|discriminate].
      simpl. now rewrite decimal_finite.
Qed.

Lemma C5_witness :
  let o := POST VariantB Sample.runtime Sample.env
             (Sample.request [] (Sample.say (js "es") (js "hola")))
             (Sample.answers 429 (JObj [(js "error", JStr (js "rate limited"))])) in
  result o = inr (error_response VariantB 429
                    [ (js "error", JStr (js "OpenAI error"));
                      (js "status", JNum (js "429"));
                      (js "details", JObj [(js "error", JStr (js "rate limited"))]) ])
  /\ List.length (calls o) = 1%nat.
Proof.
  intro o. unfold o.
  rewrite (proj1 (proj2 (C5_upstream_error_is_passed_through VariantB Sample.runtime
                           Sample.env
                           (Sample.request [] (Sample.say (js "es") (js "hola")))
                           (Sample.answers 429
                              (JObj [(js "error", JStr (js "rate limited"))]))
                           (Sample.prepared
                              (OpenAI.before_fetch Sample.env
                                 (Sample.request [] (Sample.say (js "es") (js "hola")))))
                           429%Z (Some (JObj [(js "error", JStr (js "rate limited"))]))
                           ltac:(vm_compute; reflexivity) ltac:(reflexivity)
                           ltac:(reflexivity))
                    ltac:(lia) ltac:(lia))).
  split; vm_compute; reflexivity.
Defined.

(** C5 as stated fails twice over.  An upstream 304 is a non-2xx status,
    but building a response with a body on status 304 throws inside [json],
    and the outer [catch] answers 500 Server error.  And the details are the
    upstream body as [JSON.stringify] writes it: an upstream 429 whose body
    holds 1e999 (Infinity once parsed) is passed on with null in its place. *)
Lemma C5_counterexample :
  (let o := POST VariantA Sample.runtime Sample.env
              (Sample.request [] (Sample.say (js "es") (js "hola")))
              (Sample.answers 304 (JObj [])) in
   ok 304 = false
   /\ List.length (calls o) = 1%nat
   /\ exists details,
        result o = inr (error_response VariantA 500
                          [ (js "error", JStr (js "Server error"));
                            (js "details", JStr details) ]))
  /\ (let upstream := JObj [(js "x", JNum (js "Infinity"))] in
      let o := POST VariantA Sample.runtime Sample.env
                 (Sample.request [] (Sample.say (js "es") (js "hola")))
                 (Sample.answers 429 upstream) in
      ok 429 = false
      /\ exists r,
           result o = inr r
           /\ status r = 429%Z
           /\ get (body r) (js "details") = JObj [(js "x", JNull)]
           /\ get (body r) (js "details") <> upstream).
Proof.
  vm_compute. split.
  - split; [reflexivity|]. split; [reflexivity|]. eexists. reflexivity.
  - split; [reflexivity|]. eexists. split; [reflexivity|]. split; [reflexivity|].
    split; [reflexivity|discriminate].
Qed.

(** ** C4 and C3: an empty generation *)

Lemma synthesized_id_not_empty (rt : Runtime) :
  (forall u, randomUUID rt = Some u -> u <> []) -> Gemini.synthesized_id rt <> [].
Proof.
  unfold Gemini.synthesized_id. intros Hu.
  destruct (randomUUID rt) as [u|]; [now apply Hu|discriminate].
Qed.

(** The identifier variant A answers with, when [String(data.responseId)]
    is [s]. *)
Lemma response_id_of_converted (rt : Runtime) (data : JsVal) (s : jsstring) :
  ToString (get data (js "responseId")) = inr s ->
  Gemini.response_id_of rt data
  = inr (if truthy (get data (js "responseId")) && negb (is_empty s)
         then s else Gemini.synthesized_id rt).
Proof.
  unfold Gemini.response_id_of. intros ->.
  destruct (truthy (get data (js "responseId"))); simpl; [|reflexivity].
  now destruct (is_empty s).
Qed.

(** The identifier computation in terms of the conversion alone: it throws
    exactly when the responseId is truthy and its conversion throws. *)
Lemma response_id_of_by_conversion (rt : Runtime) (data : JsVal) :
  Gemini.response_id_of rt data
  = match (if truthy (get data (js "responseId"))
           then ToString (get data (js "responseId"))
           else inr []) with
    | inl e => inl e
    | inr s => inr (if is_empty s then Gemini.synthesized_id rt else s)
    end.
Proof.
  unfold Gemini.response_id_of.
  destruct (truthy (get data (js "responseId"))); [|reflexivity].
  destruct (ToString (get data (js "responseId"))); reflexivity.
Qed.

(** Variant A on a 2xx answer, as a function of the outcome of the
    identifier computation. *)
Lemma Gemini_POST_on_success (rt : Runtime) (env : Env) (req : Request)
    (fetch : FetchCall -> FetchOutcome) (call : FetchCall)
    (st : Z) (parsed : option JsVal) :
  Gemini.before_fetch rt env req = Next call ->
  fetch call = FetchResponse st parsed ->
  ok st = true ->
  Gemini.POST rt env req fetch
  = {| result :=
         match Gemini.response_id_of rt (upstream_data parsed) with
         | inl e => Gemini.server_error rt e
         | inr rid =>
             if is_empty (Gemini.extractTextFromGemini (upstream_data parsed))
             then inr (json_response VariantA 502
                         (JObj [ (js "error", JStr (js "Empty response"));
                                 (js "response_id", JStr rid);
                                 (js "details", upstream_data parsed) ]))
             else inr {| status := 200;
                         headers := Gemini.response_headers;
                         body := JObj [ (js "text",
                                         JStr (Gemini.extractTextFromGemini
                                                 (upstream_data parsed)));
                                        (js "response_id", JStr rid) ] |}
         end;
       calls := [call] |}.
Proof.
  intros Hb Hf Hok. unfold Gemini.POST. rewrite Hb, Hf. unfold Gemini.reply.
  rewrite Hok. simpl negb. cbv iota. fold (upstream_data parsed).
  destruct (Gemini.response_id_of rt (upstream_data parsed)) as [e|rid]; [reflexivity|].
  cbn [bind lift].
  destruct (is_empty (Gemini.extractTextFromGemini (upstream_data parsed)));
    reflexivity.
Qed.

(** C4, as the code has it. For variant A, when the upstream call succeeds
    with a 2xx status, the extracted text is empty and converting the
    provider's responseId to a string does not throw, the handler answers 502
    with error Empty response, a response_id that is a non-empty string (the
    provider's responseId when it is truthy and its string form is not empty,
    otherwise the random UUID or, without one, r_ followed by the current
    time), and as details the upstream body as [JSON.stringify] writes it:
    unchanged when it holds no non-finite number, and with null in place of
    each non-finite number otherwise. *)
Theorem C4_empty_generation_is_a_502
    (rt : Runtime) (env : Env) (req : Request)
    (fetch : FetchCall -> FetchOutcome) (call : FetchCall)
    (st : Z) (parsed : option JsVal) (s : jsstring) :
  Gemini.before_fetch rt env req = Next call ->
  fetch call = FetchResponse st parsed ->
  ok st = true ->
  Gemini.extractTextFromGemini (upstream_data parsed) = [] ->
  (forall u, randomUUID rt = Some u -> u <> []) ->
  ToString (get (upstream_data parsed) (js "responseId")) = inr s ->
  let rid :=
    if truthy (get (upstream_data parsed) (js "responseId")) && negb (is_empty s)
    then s
    else match randomUUID rt with
         | Some u => u
         | None => js "r_" ++ decimal (now rt)
         end in
  let r := json_response VariantA 502
             (JObj [ (js "error", JStr (js "Empty response"));
                     (js "response_id", JStr rid);
                     (js "details", upstream_data parsed) ]) in
  Gemini.POST rt env req fetch = {| result := inr r; calls := [call] |}
  /\ rid <> []
  /\ get (body r) (js "error") = JStr (js "Empty response")
  /\ get (body r) (js "response_id") = JStr rid
  /\ get (body r) (js "details") = stringified (upstream_data parsed)
  /\ (finite_json (upstream_data parsed) = true ->
      get (body r) (js "details") = upstream_data parsed).
Proof.
  intros Hb Hf Hok Hempty Huuid Hs rid r. split; [|split].
  - rewrite (Gemini_POST_on_success rt env req fetch call st parsed Hb Hf Hok).
    rewrite (response_id_of_converted rt _ s Hs), Hempty. reflexivity.
  - unfold rid.
    destruct (truthy (get (upstream_data parsed) (js "responseId")) && negb (is_empty s))
      eqn:E.
    + apply andb_true_iff in E. destruct E as [_ E]. destruct s; [discriminate E|discriminate].
    + exact (synthesized_id_not_empty rt Huuid).
  - apply body_with_details; try reflexivity. discriminate.
Qed.

Lemma C4_witness :
  let o := Gemini.POST Sample.runtime Sample.env
             (Sample.request [] (Sample.say (js "es") (js "hola")))
             (Sample.answers 200 (JObj [(js "responseId", JStr (js "resp-1"))])) in
  result o = inr (error_response VariantA 502
                    [ (js "error", JStr (js "Empty response"));
                      (js "response_id", JStr (js "resp-1"));
                      (js "details", JObj [(js "responseId", JStr (js "resp-1"))]) ])
  /\ List.length (calls o) = 1%nat.
Proof.
  intro o. unfold o.
  rewrite (proj1 (C4_empty_generation_is_a_502 Sample.runtime Sample.env
                    (Sample.request [] (Sample.say (js "es") (js "hola")))
                    (Sample.answers 200 (JObj [(js "responseId", JStr (js "resp-1"))]))
                    (Sample.prepared
                       (Gemini.before_fetch Sample.runtime Sample.env
                          (Sample.request [] (Sample.say (js "es") (js "hola")))))
                    200%Z (Some (JObj [(js "responseId", JStr (js "resp-1"))]))
                    (js "resp-1")
                    ltac:(vm_compute; reflexivity) ltac:(reflexivity)
                    ltac:(reflexivity) ltac:(vm_compute; reflexivity)
                    ltac:(intros u Hu; vm_compute in Hu; injection Hu as <-; discriminate)
                    ltac:(vm_compute; reflexivity))).
  split; vm_compute; reflexivity.
Defined.

(** C4 as stated fails twice over.  A 2xx answer without text whose
    responseId is an object with an own [toString] property makes
    [String(data.responseId)] throw, and the handler answers 500 Server error
    instead of 502.  And the details of a 502 are the upstream body as
    [JSON.stringify] writes it: a body holding 1e999 (Infinity once parsed)
    comes back with null in its place. *)
Lemma C4_counterexample :
  (let data := JObj [(js "responseId", Sample.stubborn)] in
   let o := Gemini.POST Sample.runtime Sample.env
              (Sample.request [] (Sample.say (js "es") (js "hola")))
              (Sample.answers 200 data) in
   ok 200 = true
   /\ Gemini.extractTextFromGemini data = []
   /\ List.length (calls o) = 1%nat
   /\ exists details,
        result o = inr (error_response VariantA 500
                          [ (js "error", JStr (js "Server error"));
                            (js "details", JStr details) ]))
  /\ (let data := JObj [(js "x", JNum (js "Infinity"))] in
      let o := Gemini.POST Sample.runtime Sample.env
                 (Sample.request [] (Sample.say (js "es") (js "hola")))
                 (Sample.answers 200 data) in
      Gemini.extractTextFromGemini data = []
      /\ exists r,
           result o = inr r
           /\ status r = 502%Z
           /\ get (body r) (js "details") = JObj [(js "x", JNull)]
           /\ get (body r) (js "details") <> data).
Proof.
  vm_compute. split.
  - split; [reflexivity|]. split; [reflexivity|]. split; [reflexivity|].
    eexists. reflexivity.
  - split; [reflexivity|]. eexists. split; [reflexivity|]. split; [reflexivity|].
    split; [reflexivity|discriminate].
Qed.

(** C3, as the code has it. On a 2xx answer whose extracted text is empty,
    variant A never answers 200: it answers 502 Empty response, except when
    the provider's responseId is truthy and converting it to a string throws,
    in which case, and only then, it answers 500 Server error.  Variant B has
    no such check: it answers 200 with an empty text and the provider's id as
    [JSON.stringify] writes it, null when there is none. *)
Theorem C3_empty_generation_by_variant
    (v : Variant) (rt : Runtime) (env : Env) (req : Request)
    (fetch : FetchCall -> FetchOutcome) (call : FetchCall)
    (st : Z) (parsed : option JsVal) :
  before_fetch v rt env req = Next call ->
  fetch call = FetchResponse st parsed ->
  ok st = true ->
  match v with
  | VariantA =>
      Gemini.extractTextFromGemini (upstream_data parsed) = [] ->
      POST VariantA rt env req fetch
      = {| result :=
             inr match (if truthy (get (upstream_data parsed) (js "responseId"))
                        then ToString (get (upstream_data parsed) (js "responseId"))
                        else inr []) with
                 | inl e =>
                     error_response VariantA 500
                       [ (js "error", JStr (js "Server error"));
                         (js "details", JStr (message rt e)) ]
                 | inr s =>
                     json_response VariantA 502
                       (JObj [ (js "error", JStr (js "Empty response"));
                               (js "response_id",
                                JStr (if is_empty s then Gemini.synthesized_id rt else s));
                               (js "details", upstream_data parsed) ])
                 end;
           calls := [call] |}
      /\ forall r, result (POST VariantA rt env req fetch) = inr r -> status r <> 200%Z
  | VariantB =>
      OpenAI.extractOutputText (upstream_data parsed) = inr [] ->
      POST VariantB rt env req fetch
      = {| result :=
             inr {| status := 200;
                    headers := OpenAI.response_headers;
                    body := JObj [ (js "text", JStr []);
                                   (js "response_id",
                                    stringified
                                      (nullish (get (upstream_data parsed) (js "id"))
                                         JNull)) ] |};
           calls := [call] |}
  end.
Proof.
  intros Hb Hf Hok. destruct v; simpl in Hb.
  - intros Hempty.
    assert (H : POST VariantA rt env req fetch
                = {| result :=
                       inr match (if truthy (get (upstream_data parsed) (js "responseId"))
                                  then ToString (get (upstream_data parsed) (js "responseId"))
                                  else inr []) with
                           | inl e =>
                               error_response VariantA 500
                                 [ (js "error", JStr (js "Server error"));
                                   (js "details", JStr (message rt e)) ]
                           | inr s =>
                               json_response VariantA 502
                                 (JObj [ (js "error", JStr (js "Empty response"));
                                         (js "response_id",
                                          JStr (if is_empty s
                                                then Gemini.synthesized_id rt else s));
                                         (js "details", upstream_data parsed) ])
                           end;
                     calls := [call] |}).
    { simpl POST.
      rewrite (Gemini_POST_on_success rt env req fetch call st parsed Hb Hf Hok).
      rewrite response_id_of_by_conversion, Hempty.
      destruct (if truthy _ then _ else _) as [e|s]; reflexivity. }
    split; [exact H|].
    intros r. rewrite H. simpl result.
    destruct (if truthy _ then _ else _) as [e|s]; intros Hr; injection Hr as <-;
      discriminate.
  - intros Hempty. simpl POST. unfold OpenAI.POST. rewrite Hb, Hf. unfold OpenAI.reply.
    rewrite Hok. simpl negb. cbv iota. fold (upstream_data parsed).
    rewrite Hempty. cbn [bind lift].
    destruct (get (upstream_data parsed) (js "id")); reflexivity.
Qed.

Lemma C3_witness :
  result (POST VariantA Sample.runtime Sample.env
            (Sample.request [] (Sample.say (js "es") (js "hola")))
            (Sample.answers 200 (JObj [])))
  = inr (error_response VariantA 502
           [ (js "error", JStr (js "Empty response"));
             (js "response_id", JStr (js "0b0e7a52-6f0c-4c2e-9a55-3f1d2a7c9e10"));
             (js "details", JObj []) ])
  /\ result (POST VariantB Sample.runtime Sample.env
               (Sample.request [] (Sample.say (js "es") (js "hola")))
               (Sample.answers 200 (JObj [])))
     = inr {| status := 200;
              headers := OpenAI.response_headers;
              body := JObj [(js "text", JStr []); (js "response_id", JNull)] |}.
Proof.
  split.
  - rewrite (proj1 (C3_empty_generation_by_variant VariantA Sample.runtime Sample.env
                      (Sample.request [] (Sample.say (js "es") (js "hola")))
                      (Sample.answers 200 (JObj []))
                      (Sample.prepared
                         (Gemini.before_fetch Sample.runtime Sample.env
                            (Sample.request [] (Sample.say (js "es") (js "hola")))))
                      200%Z (Some (JObj []))
                      ltac:(vm_compute; reflexivity) ltac:(reflexivity) ltac:(reflexivity)
                      ltac:(vm_compute; reflexivity))).
    vm_compute. reflexivity.
  - rewrite (C3_empty_generation_by_variant VariantB Sample.runtime Sample.env
               (Sample.request [] (Sample.say (js "es") (js "hola")))
               (Sample.answers 200 (JObj []))
               (Sample.prepared
                  (OpenAI.before_fetch Sample.env
                     (Sample.request [] (Sample.say (js "es") (js "hola")))))
               200%Z (Some (JObj []))
               ltac:(vm_compute; reflexivity) ltac:(reflexivity) ltac:(reflexivity)
               ltac:(vm_compute; reflexivity)).
    reflexivity.
Defined.

(** C3 as stated fails for variant B: a 2xx answer with nothing to extract
    is answered 200 with an empty text. *)
Lemma C3_counterexample :
  let o := POST VariantB Sample.runtime Sample.env
             (Sample.request [] (Sample.say (js "es") (js "hola")))
             (Sample.answers 200 (JObj [])) in
  ok 200 = true
  /\ OpenAI.extractOutputText (JObj []) = inr []
  /\ result o = inr {| status := 200;
                       headers := OpenAI.response_headers;
                       body := JObj [(js "text", JStr []); (js "response_id", JNull)] |}.
Proof. vm_compute. repeat split. Qed.

(** ** C2: the shared secret *)

Lemma or_else_some (s : jsstring) : or_else (Some s) [] = s.
Proof. now destruct s. Qed.

Lemma POST_after_authorize (v : Variant) (rt : Runtime) (env : Env) (req : Request)
    (fetch : FetchCall -> FetchOutcome) :
  authorize v env req = Next tt ->
  POST v rt env req fetch = POST v rt (without_secret env) req fetch.
Proof.
  intros Ha. destruct v; simpl in *.
  - unfold Gemini.POST, Gemini.before_fetch. rewrite Ha. reflexivity.
  - unfold OpenAI.POST, OpenAI.before_fetch. rewrite Ha. reflexivity.
Qed.

Lemma POST_unauthorized (v : Variant) (rt : Runtime) (env : Env) (req : Request)
    (fetch : FetchCall -> FetchOutcome) :
  authorize v env req = Return (error_response v 401 [(js "error", JStr (js "Unauthorized"))]) ->
  POST v rt env req fetch = unauthorized v.
Proof.
  intros Ha. destruct v; simpl in *.
  - unfold Gemini.POST, Gemini.before_fetch. rewrite Ha. reflexivity.
  - unfold OpenAI.POST, OpenAI.before_fetch. rewrite Ha. reflexivity.
Qed.

(** C2, as the code has it. Variant A trims the configured secret and the
    sent header: when the trimmed secret is not empty, a header that is
    absent or differs after trimming gets 401 Unauthorized, and an equal one
    lets the request go on to validation.  Variant B compares the two as they
    are, without trimming: when the secret is not empty, any different header
    gets 401 and only an identical one goes on. *)
Theorem C2_secret_check_by_variant
    (v : Variant) (rt : Runtime) (env : Env) (req : Request)
    (fetch : FetchCall -> FetchOutcome) (secret : jsstring) :
  APP_TOKEN env = Some secret ->
  match v with
  | VariantA =>
      trim secret <> [] ->
      (trim (sent_token req) <> trim secret ->
       POST VariantA rt env req fetch = unauthorized VariantA)
      /\ (trim (sent_token req) = trim secret ->
          authorize VariantA env req = Next tt
          /\ POST VariantA rt env req fetch
             = POST VariantA rt (without_secret env) req fetch)
  | VariantB =>
      secret <> [] ->
      (sent_token req <> secret ->
       POST VariantB rt env req fetch = unauthorized VariantB)
      /\ (sent_token req = secret ->
          authorize VariantB env req = Next tt
          /\ POST VariantB rt env req fetch
             = POST VariantB rt (without_secret env) req fetch)
  end.
Proof.
  intros Hs. destruct v.
  - intros Hne.
    assert (Hauth : Gemini.authorize env req
                    = if eqb (trim (sent_token req)) (trim secret)
                      then Next tt
                      else Return (error_response VariantA 401
                                     [(js "error", JStr (js "Unauthorized"))])).
    { unfold Gemini.authorize, sent_token. rewrite Hs.
      change (js "") with (@nil N). rewrite or_else_some.
      destruct (trim secret) as [|c t] eqn:E; [congruence|]. simpl is_empty. simpl negb.
      cbv iota. destruct (eqb _ (c :: t)); reflexivity. }
    split; intros H.
    + apply eqb_neq in H. rewrite H in Hauth. now apply POST_unauthorized.
    + apply eqb_eq in H. rewrite H in Hauth. split; [exact Hauth|].
      now apply POST_after_authorize.
  - intros Hne.
    assert (Hauth : OpenAI.authorize env req
                    = if eqb (sent_token req) secret
                      then Next tt
                      else Return (error_response VariantB 401
                                     [(js "error", JStr (js "Unauthorized"))])).
    { unfold OpenAI.authorize, sent_token. rewrite Hs.
      change (js "") with (@nil N). rewrite or_else_some.
      destruct secret as [|c t] eqn:E; [congruence|]. simpl is_empty. simpl negb.
      cbv iota. destruct (eqb _ (c :: t)); reflexivity. }
    split; intros H.
    + apply eqb_neq in H. rewrite H in Hauth. now apply POST_unauthorized.
    + apply eqb_eq in H. rewrite H in Hauth. split; [exact Hauth|].
      now apply POST_after_authorize.
Qed.

Lemma C2_witness :
  POST VariantA Sample.runtime (Sample.env_with_secret (js " s3cret "))
    (Sample.request [(js "x-app-token", js "S3CRET")] (JObj []))
    (Sample.answers 200 (JObj []))
  = unauthorized VariantA
  /\ authorize VariantA (Sample.env_with_secret (js " s3cret "))
       (Sample.request [(js "x-app-token", js "s3cret")] (JObj [])) = Next tt
  /\ POST VariantB Sample.runtime (Sample.env_with_secret (js "s3cret"))
       (Sample.request [] (JObj [])) (Sample.answers 200 (JObj []))
     = unauthorized VariantB.
Proof.
  split; [|split].
  - apply (C2_secret_check_by_variant VariantA Sample.runtime
             (Sample.env_with_secret (js " s3cret "))
             (Sample.request [(js "x-app-token", js "S3CRET")] (JObj []))
             (Sample.answers 200 (JObj [])) (js " s3cret ") eq_refl);
      vm_compute; discriminate.
  - apply (C2_secret_check_by_variant VariantA Sample.runtime
             (Sample.env_with_secret (js " s3cret "))
             (Sample.request [(js "x-app-token", js "s3cret")] (JObj []))
             (Sample.answers 200 (JObj [])) (js " s3cret ") eq_refl).
    + vm_compute; discriminate.
    + vm_compute; reflexivity.
  - apply (C2_secret_check_by_variant VariantB Sample.runtime
             (Sample.env_with_secret (js "s3cret"))
             (Sample.request [] (JObj []))
             (Sample.answers 200 (JObj [])) (js "s3cret") eq_refl);
      vm_compute; discriminate.
Defined.

(** C2 as stated fails.  Variant B does not trim: with the secret configured
    with a trailing space, a header equal to it after trimming is answered
    401.  Variant A skips the check when the configured secret is not empty
    but blank: a request without the header is then not answered 401. *)
Lemma C2_counterexample :
  (let env := Sample.env_with_secret (js "s3cret ") in
   let req := Sample.request [(js "x-app-token", js "s3cret")] (Sample.say (js "es") (js "hola")) in
   trim (sent_token req) = trim (js "s3cret ")
   /\ POST VariantB Sample.runtime env req (Sample.answers 200 (JObj []))
      = unauthorized VariantB)
  /\ (let env := Sample.env_with_secret (js " ") in
      let req := Sample.request [] (JObj []) in
      js " " <> []
      /\ headers_get (req_headers req) (js "x-app-token") = None
      /\ authorize VariantA env req = Next tt
      /\ POST VariantA Sample.runtime env req (Sample.answers 200 (JObj []))
         = {| result := inr (error_response VariantA 400
                               [(js "error", JStr (js "Missing text"))]);
              calls := [] |}).
Proof. vm_compute. repeat split. discriminate. Qed.

(** ** C1: the target language of the system instruction *)

Lemma bind_Next {A B : Type} (c : Ctl A) (k : A -> Ctl B) (b : B) :
  bind c k = Next b -> exists a, c = Next a /\ k a = Next b.
Proof. destruct c as [a|r|e]; simpl; intros H; [eauto|discriminate|discriminate]. Qed.

Lemma lift_Next {A : Type} (c : Thrown + A) (a : A) :
  lift c = Next a -> c = inr a.
Proof. destruct c; simpl; intros H; [discriminate|congruence]. Qed.

Lemma returning_not_Next {A : Type} (c : Thrown + Response) (a : A) :
  returning c <> Next a.
Proof. destruct c; discriminate. Qed.

(** The instruction of variant A names the language it was built for. *)
Lemma Gemini_instruction_names (lang : Gemini.Lang) :
  names_italian (Gemini.buildInstructions lang)
  = match lang with Gemini.it => true | Gemini.es => false end
  /\ names_spanish (Gemini.buildInstructions lang)
     = match lang with Gemini.it => false | Gemini.es => true end.
Proof. destruct lang; vm_compute; split; reflexivity. Qed.

(** The instruction of variant B names Italian for the exact code it only. *)
Lemma OpenAI_instruction_names (lang : jsstring) :
  names_italian (OpenAI.buildInstructions lang) = eqb lang (js "it")
  /\ names_spanish (OpenAI.buildInstructions lang) = negb (eqb lang (js "it")).
Proof.
  unfold OpenAI.buildInstructions.
  destruct (eqb lang (js "it")); vm_compute; split; reflexivity.
Qed.

Lemma normalizeLang_marks (rt : Runtime) (input : jsstring) :
  Gemini.normalizeLang rt input
  = if marks_italian (trim (toLowerCase rt input)) then Gemini.it else Gemini.es.
Proof.
  unfold Gemini.normalizeLang, marks_italian.
  change (js "") with (@nil N). now rewrite or_else_some.
Qed.

(** The string form of an absent [lang] is the default code. *)
Lemma absent_lang_is_es (b : JsVal) (langStr : jsstring) :
  nullish (get b (js "lang")) JNull = JNull ->
  toString (nullish (get b (js "lang")) (JStr (js "es"))) = inr langStr ->
  langStr = js "es".
Proof.
  destruct (get b (js "lang")); simpl; intros H Hl; try discriminate H;
    injection Hl as <-; reflexivity.
Qed.

(** What reaching the outbound call tells about variant A. *)
Lemma Gemini_before_fetch_Next (rt : Runtime) (env : Env) (req : Request) (call : FetchCall) :
  Gemini.before_fetch rt env req = Next call ->
  exists langStr,
    toString (nullish (get (Gemini.safeParseJson rt req) (js "lang")) (JStr (js "es")))
    = inr langStr
    /\ instruction_sent VariantA call
       = JStr (Gemini.buildInstructions (Gemini.normalizeLang rt langStr)).
Proof.
  unfold Gemini.before_fetch. intros H.
  apply bind_Next in H. destruct H as [[] [_ H]].
  apply bind_Next in H. destruct H as [[[lang text] history] [Hv Ho]].
  unfold Gemini.validate in Hv.
  apply bind_Next in Hv. destruct Hv as [langStr [Hl Hv]]. apply lift_Next in Hl.
  apply bind_Next in Hv. destruct Hv as [text0 [_ Hv]].
  destruct (is_empty (trim text0)); [now apply returning_not_Next in Hv|].
  destruct (1500 <? N.of_nat (List.length (trim text0)));
    [now apply returning_not_Next in Hv|].
  injection Hv as <- <- <-.
  exists langStr. split; [exact Hl|].
  unfold Gemini.outbound in Ho.
  destruct (is_empty (trim (or_else (GEMINI_API_KEY env) (js ""))));
    [now apply returning_not_Next in Ho|].
  apply bind_Next in Ho. destruct Ho as [encoded [_ Ho]].
  apply bind_Next in Ho. destruct Ho as [contents [_ Ho]].
  injection Ho as <-. reflexivity.
Qed.

(** What reaching the outbound call tells about variant B. *)
Lemma OpenAI_before_fetch_Next (env : Env) (req : Request) (call : FetchCall) :
  OpenAI.before_fetch env req = Next call ->
  exists langStr,
    toString (nullish (get (match req_json req with Some b => b | None => JNull end)
                         (js "lang")) (JStr (js "es")))
    = inr langStr
    /\ instruction_sent VariantB call = JStr (OpenAI.buildInstructions langStr).
Proof.
  unfold OpenAI.before_fetch. intros H.
  apply bind_Next in H. destruct H as [[] [_ H]].
  apply bind_Next in H. destruct H as [[[lang text] prev] [Hv Ho]].
  unfold OpenAI.validate in Hv.
  apply bind_Next in Hv. destruct Hv as [langStr [Hl Hv]]. apply lift_Next in Hl.
  apply bind_Next in Hv. destruct Hv as [text0 [_ Hv]].
  apply bind_Next in Hv. destruct Hv as [prev0 [_ Hv]].
  destruct (is_empty (trim text0)); [now apply returning_not_Next in Hv|].
  destruct (1500 <? N.of_nat (List.length (trim text0)));
    [now apply returning_not_Next in Hv|].
  injection Hv as <- <- <-.
  exists langStr. split; [exact Hl|].
  unfold OpenAI.outbound in Ho.
  destruct (missing (OPENAI_API_KEY env)); [now apply returning_not_Next in Ho|].
  injection Ho as <-. reflexivity.
Qed.

Lemma POST_calls (v : Variant) (rt : Runtime) (env : Env) (req : Request)
    (fetch : FetchCall -> FetchOutcome) (call : FetchCall) :
  before_fetch v rt env req = Next call -> calls (POST v rt env req fetch) = [call].
Proof.
  intros H. destruct v; simpl in *; [unfold Gemini.POST|unfold OpenAI.POST];
    now rewrite H.
Qed.

(** C1, as the code has it. Whenever a handler reaches its outbound call,
    the system instruction it sends names exactly one target language.
    Variant A normalizes: Italian when the lower-cased, trimmed string form of
    [lang] is it or contains ital, Spanish for every other value.  Variant B
    does not normalize: Italian only when the string form of [lang] is exactly
    it, Spanish for every other value.  In both, an absent [lang] gives
    Spanish. *)
Theorem C1_target_language_by_variant
    (v : Variant) (rt : Runtime) (env : Env) (req : Request)
    (fetch : FetchCall -> FetchOutcome) (call : FetchCall) :
  before_fetch v rt env req = Next call ->
  exists langStr instr,
    toString (nullish (get (parsed_body v rt req) (js "lang")) (JStr (js "es"))) = inr langStr
    /\ calls (POST v rt env req fetch) = [call]
    /\ instruction_sent v call = JStr instr
    /\ names_italian instr = selects_italian v rt langStr
    /\ names_spanish instr = negb (selects_italian v rt langStr)
    /\ (nullish (get (parsed_body v rt req) (js "lang")) JNull = JNull ->
        toLowerCase rt (js "es") = js "es" ->
        langStr = js "es" /\ names_spanish instr = true).
Proof.
  intros Hb. pose proof (POST_calls v rt env req fetch call Hb) as Hcalls.
  destruct v; simpl in Hb.
  - destruct (Gemini_before_fetch_Next rt env req call Hb) as [langStr [Hl Hi]].
    exists langStr, (Gemini.buildInstructions (Gemini.normalizeLang rt langStr)).
    assert (Hsel : names_italian (Gemini.buildInstructions (Gemini.normalizeLang rt langStr))
                   = marks_italian (trim (toLowerCase rt langStr))
                   /\ names_spanish (Gemini.buildInstructions (Gemini.normalizeLang rt langStr))
                      = negb (marks_italian (trim (toLowerCase rt langStr)))).
    { destruct (Gemini_instruction_names (Gemini.normalizeLang rt langStr)) as [Hit Hes].
      rewrite Hit, Hes, normalizeLang_marks.
      destruct (marks_italian (trim (toLowerCase rt langStr))); split; reflexivity. }
    destruct Hsel as [Hsel1 Hsel2].
    split; [exact Hl|]. split; [exact Hcalls|]. split; [exact Hi|].
    split; [exact Hsel1|]. split; [exact Hsel2|].
    intros Habsent Hlower.
    pose proof (absent_lang_is_es _ _ Habsent Hl) as ->.
    split; [reflexivity|]. rewrite Hsel2, Hlower. reflexivity.
  - destruct (OpenAI_before_fetch_Next env req call Hb) as [langStr [Hl Hi]].
    exists langStr, (OpenAI.buildInstructions langStr).
    destruct (OpenAI_instruction_names langStr) as [Hit Hes].
    split; [exact Hl|]. split; [exact Hcalls|]. split; [exact Hi|].
    split; [exact Hit|]. split; [exact Hes|].
    intros Habsent _.
    pose proof (absent_lang_is_es _ _ Habsent Hl) as Hes'.
    split; [exact Hes'|]. rewrite Hes, Hes'. reflexivity.
Qed.

Lemma C1_witness :
  let req := Sample.request [] (Sample.say (js " ITALIANO ") (js "ciao")) in
  exists instr,
    instruction_sent VariantA (Sample.prepared (Gemini.before_fetch Sample.runtime Sample.env req))
    = JStr instr
    /\ names_italian instr = true
    /\ names_spanish instr = false.
Proof.
  intro req.
  destruct (C1_target_language_by_variant VariantA Sample.runtime Sample.env req
              (Sample.answers 200 Sample.fragments_A)
              (Sample.prepared (Gemini.before_fetch Sample.runtime Sample.env req))
              ltac:(vm_compute; reflexivity))
    as [langStr [instr [Hl [_ [Hi [Hit [Hes _]]]]]]].
  vm_compute in Hl. injection Hl as <-.
  exists instr. split; [exact Hi|]. rewrite Hit, Hes. split; vm_compute; reflexivity.
Defined.

(** C1 as stated fails for variant B: the lower-cased, trimmed form of
    Italiano contains ital, yet the instruction variant B sends names Spanish,
    since it compares [lang] with the exact code it and does not normalize. *)
Lemma C1_counterexample :
  let req := Sample.request [] (Sample.say (js "Italiano") (js "ciao")) in
  let call := Sample.prepared (OpenAI.before_fetch Sample.env req) in
  includes (trim (toLowerCase Sample.runtime (js "Italiano"))) (js "ital") = true
  /\ calls (POST VariantB Sample.runtime Sample.env req (Sample.answers 200 Sample.fragments_B))
     = [call]
  /\ exists instr,
       instruction_sent VariantB call = JStr instr
       /\ names_italian instr = false
       /\ names_spanish instr = true.
Proof.
  vm_compute. split; [reflexivity|]. split; [reflexivity|].
  eexists. split; [reflexivity|]. split; reflexivity.
Qed.

(** * Further properties of the handlers *)

(** ** Requests without a usable text *)

(** X1. A [text] that is empty or made of white space only is answered 400
    Missing text, with no outbound call, once authorization has passed and the
    fields converted before the check have converted. *)
Theorem X1_blank_text_is_missing_text
    (v : Variant) (rt : Runtime) (env : Env) (req : Request)
    (fetch : FetchCall -> FetchOutcome) (s : jsstring) :
  authorize v env req = Next tt ->
  fields_convert v (parsed_body v rt req) ->
  text_field (parsed_body v rt req) = inr s ->
  blank s = true ->
  POST v rt env req fetch
  = {| result := inr (error_response v 400 [(js "error", JStr (js "Missing text"))]);
       calls := [] |}.
Proof.
  intros Ha [[l Hl] Hprev] Hs Hblank. pose proof (trim_blank s Hblank) as Ht.
  destruct v; simpl in *.
  - pose proof (Gemini_validate_converted rt req l s Hl Hs) as Hv.
    unfold Gemini.POST, Gemini.before_fetch. rewrite Ha. simpl.
    rewrite Hv, Ht. reflexivity.
  - destruct (OpenAI_validate_converted req _ l s eq_refl Hl Hs Hprev) as [prev Hv].
    unfold OpenAI.POST, OpenAI.before_fetch. rewrite Ha. simpl.
    rewrite Hv, Ht. reflexivity.
Qed.

Lemma X1_witness :
  POST VariantB Sample.runtime Sample.env
    (Sample.request [] (Sample.say (js "it") (js "
 	 ")))
    (Sample.answers 200 (JObj []))
  = {| result := inr (error_response VariantB 400 [(js "error", JStr (js "Missing text"))]);
       calls := [] |}.
Proof.
  apply (X1_blank_text_is_missing_text VariantB Sample.runtime Sample.env
           (Sample.request [] (Sample.say (js "it") (js "
 	 ")))
           (Sample.answers 200 (JObj [])) (js "
 	 ")).
  - reflexivity.
  - split; [eexists; reflexivity|]. simpl. discriminate.
  - reflexivity.
  - vm_compute. reflexivity.
Defined.

(** ** The shared secret, continued *)

Lemma no_secret_authorizes (v : Variant) (env : Env) (req : Request) :
  no_secret v env -> authorize v env req = Next tt.
Proof.
  destruct v; simpl; intros H.
  - unfold Gemini.authorize. now rewrite H.
  - unfold OpenAI.authorize.
    destruct (APP_TOKEN env) as [[|c t]|]; simpl in *; try discriminate; reflexivity.
Qed.

Lemma POST_reads_headers_in_authorize (v : Variant) (rt : Runtime) (env : Env)
    (req : Request) (fetch : FetchCall -> FetchOutcome) (h : Headers) :
  authorize v env req = Next tt ->
  authorize v env (with_headers req h) = Next tt ->
  POST v rt env (with_headers req h) fetch = POST v rt env req fetch.
Proof.
  intros Ha Hb. destruct v; simpl in *.
  - unfold Gemini.POST, Gemini.before_fetch. rewrite Ha, Hb. reflexivity.
  - unfold OpenAI.POST, OpenAI.before_fetch. rewrite Ha, Hb. reflexivity.
Qed.

(** X2. When no shared secret is in force (unset or empty; for variant A also
    blank), the request headers have no influence at all: the handler gives
    the same response and issues the same calls whatever headers accompany
    the body. *)
Theorem X2_without_secret_headers_do_not_matter
    (v : Variant) (rt : Runtime) (env : Env) (req : Request)
    (fetch : FetchCall -> FetchOutcome) (h : Headers) :
  no_secret v env ->
  POST v rt env (with_headers req h) fetch = POST v rt env req fetch.
Proof.
  intros H. apply POST_reads_headers_in_authorize; now apply no_secret_authorizes.
Qed.

Lemma X2_witness :
  POST VariantA Sample.runtime (Sample.env_with_secret (js "  "))
    (with_headers (Sample.request [] (Sample.say (js "es") (js "hola")))
       [(js "x-app-token", js "anything")])
    (Sample.answers 429 (JObj []))
  = POST VariantA Sample.runtime (Sample.env_with_secret (js "  "))
      (Sample.request [] (Sample.say (js "es") (js "hola")))
      (Sample.answers 429 (JObj [])).
Proof.
  apply (X2_without_secret_headers_do_not_matter VariantA).
  vm_compute. reflexivity.
Defined.

(** X3. When the configured secret and the sent header carry no surrounding
    white space, the two variants take the same decision: one lets the request
    through exactly when the other does. *)
Theorem X3_variants_agree_on_trimmed_secrets (env : Env) (req : Request) :
  trim (or_else (APP_TOKEN env) (js "")) = or_else (APP_TOKEN env) (js "") ->
  trim (sent_token req) = sent_token req ->
  (Gemini.authorize env req = Next tt <-> OpenAI.authorize env req = Next tt).
Proof.
  unfold Gemini.authorize, OpenAI.authorize, sent_token. intros -> ->.
  destruct (is_empty (or_else (APP_TOKEN env) (js ""))); simpl; [tauto|].
  destruct (eqb _ _); simpl; [tauto|].
  split; intros H; discriminate H.
Qed.

Lemma X3_witness :
  Gemini.authorize (Sample.env_with_secret (js "s3cret"))
    (Sample.request [(js "x-app-token", js "s3cret")] (JObj [])) = Next tt
  <-> OpenAI.authorize (Sample.env_with_secret (js "s3cret"))
        (Sample.request [(js "x-app-token", js "s3cret")] (JObj [])) = Next tt.
Proof.
  apply (X3_variants_agree_on_trimmed_secrets (Sample.env_with_secret (js "s3cret"))
           (Sample.request [(js "x-app-token", js "s3cret")] (JObj [])));
    vm_compute; reflexivity.
Defined.

(** ** The provider cannot be reached *)

(** X4. When [fetch] rejects (a network failure), the handler answers 500
    Server error with the rejection's message as details, after exactly the
    one call it attempted. *)
Theorem X4_rejected_fetch_is_a_server_error
    (v : Variant) (rt : Runtime) (env : Env) (req : Request)
    (fetch : FetchCall -> FetchOutcome) (call : FetchCall) (reason : jsstring) :
  before_fetch v rt env req = Next call ->
  fetch call = FetchRejects reason ->
  POST v rt env req fetch
  = {| result := inr (error_response v 500
                        [ (js "error", JStr (js "Server error"));
                          (js "details", JStr reason) ]);
       calls := [call] |}.
Proof.
  intros Hb Hf. destruct v; simpl in *.
  - unfold Gemini.POST. rewrite Hb, Hf. reflexivity.
  - unfold OpenAI.POST. rewrite Hb, Hf. reflexivity.
Qed.

Lemma X4_witness :
  result (POST VariantA Sample.runtime Sample.env
            (Sample.request [] (Sample.say (js "es") (js "hola")))
            (fun _ => FetchRejects (js "fetch failed")))
  = inr (error_response VariantA 500
           [ (js "error", JStr (js "Server error"));
             (js "details", JStr (js "fetch failed")) ]).
Proof.
  rewrite (X4_rejected_fetch_is_a_server_error VariantA Sample.runtime Sample.env
             (Sample.request [] (Sample.say (js "es") (js "hola")))
             (fun _ => FetchRejects (js "fetch failed"))
             (Sample.prepared (Gemini.before_fetch Sample.runtime Sample.env
                                 (Sample.request [] (Sample.say (js "es") (js "hola")))))
             (js "fetch failed")
             ltac:(vm_compute; reflexivity) ltac:(reflexivity)).
  reflexivity.
Defined.

(** ** The statuses a handler answers with *)

Lemma returning_returns {A : Type} (P : Response -> Prop) (d : JsVal) (st : Z) (h : Headers) :
  (forall r, status r = st -> body r = d -> P r) ->
  returns P (@returning A (NextResponse d st h)).
Proof.
  intros H. unfold returning.
  destruct (NextResponse d st h) as [e|r] eqn:E; simpl; [exact I|].
  apply NextResponse_headers in E. destruct E as [_ [Hs Hb]]. now apply H.
Qed.

Lemma lift_returns {A : Type} (P : Response -> Prop) (c : Thrown + A) : returns P (lift c).
Proof. destruct c; exact I. Qed.

Lemma bind_returns {A B : Type} (P : Response -> Prop) (c : Ctl A) (k : A -> Ctl B) :
  returns P c -> (forall a, returns P (k a)) -> returns P (bind c k).
Proof. destruct c; simpl; auto. Qed.

Ltac early :=
  repeat first
    [ apply returning_returns; intros ? ? _; unfold early_status; tauto
    | apply lift_returns
    | exact I
    | apply bind_returns; [|intro]
    | match goal with
      | |- context [if ?b then _ else _] => destruct b
      | |- context [match ?x with Some _ => _ | None => _ end] => destruct x
      end ].

(** Before the outbound call a handler only ever returns 400, 401 or 500. *)
Lemma before_fetch_early (v : Variant) (rt : Runtime) (env : Env) (req : Request) :
  returns early_status (before_fetch v rt env req).
Proof.
  destruct v; simpl.
  - unfold Gemini.before_fetch, Gemini.authorize, Gemini.validate, Gemini.json.
    apply bind_returns; [early|intros _].
    apply bind_returns; [early|intros [[lang text] history]].
    unfold Gemini.outbound, Gemini.json. early.
  - unfold OpenAI.before_fetch, OpenAI.authorize, OpenAI.validate, OpenAI.json.
    apply bind_returns; [early|intros _].
    apply bind_returns; [early|intros [[lang text] prev]].
    unfold OpenAI.outbound, OpenAI.json. early.
Qed.

(** The pass-through branch: the upstream status, or 500 when no response
    can be built on it. *)
Lemma pass_through_status (v : Variant) (rt : Runtime) (d : JsVal) (st : Z) :
  exists r,
    try_catch (returning (NextResponse d st (response_headers v)))
      (match v with
       | VariantA => Gemini.server_error rt
       | VariantB => OpenAI.server_error rt
       end) = inr r
    /\ (status r = st \/ status r = 500%Z).
Proof.
  unfold returning.
  destruct (NextResponse d st (response_headers v)) as [e|r] eqn:E; simpl.
  - pose proof (server_error_responds v rt e) as H.
    destruct v; rewrite H; eexists; split; try reflexivity; now right.
  - exists r. split; [reflexivity|]. apply NextResponse_headers in E. tauto.
Qed.

(** X5. Whatever the request, the deployment and the provider do, the
    handler resolves to a response whose status is 200, 400, 401 or 500, or
    502 in variant A, or else the non-2xx status the provider answered the
    handler's call with. *)
Theorem X5_statuses_of_the_responses
    (v : Variant) (rt : Runtime) (env : Env) (req : Request)
    (fetch : FetchCall -> FetchOutcome) :
  exists r,
    result (POST v rt env req fetch) = inr r
    /\ (status r = 200%Z \/ status r = 400%Z \/ status r = 401%Z \/ status r = 500%Z
        \/ (v = VariantA /\ status r = 502%Z)
        \/ exists call st parsed,
             before_fetch v rt env req = Next call
             /\ fetch call = FetchResponse st parsed
             /\ ok st = false
             /\ status r = st).
Proof.
  pose proof (before_fetch_early v rt env req) as Hearly.
  destruct v; simpl in *.
  - unfold Gemini.POST.
    destruct (Gemini.before_fetch rt env req) as [call|r|e] eqn:Hb; simpl in *.
    + destruct (fetch call) as [reason|st parsed] eqn:Hf; simpl.
      * eexists. split; [reflexivity|]. simpl. tauto.
      * destruct (ok st) eqn:Hok; simpl.
        -- destruct (Gemini.response_id_of rt _) as [e|rid]; simpl.
           ++ eexists. split; [reflexivity|]. simpl. tauto.
           ++ destruct (is_empty _); eexists; (split; [reflexivity|]); simpl; tauto.
        -- destruct (pass_through_status VariantA rt
                       (stringified
                          (JObj [ (js "error", JStr (js "Gemini error"));
                                  (js "status", JNum (decimal st));
                                  (js "details", match parsed with
                                                 | Some d => d
                                                 | None => JObj []
                                                 end) ])) st) as [r [Hr Hs]].
           exists r. split; [exact Hr|]. destruct Hs as [Hs|Hs]; [|tauto].
           do 5 right. exists call, st, parsed. auto.
    + exists r. split; [reflexivity|]. unfold early_status in Hearly. tauto.
    + eexists. split; [reflexivity|]. simpl. tauto.
  - unfold OpenAI.POST.
    destruct (OpenAI.before_fetch env req) as [call|r|e] eqn:Hb; simpl in *.
    + destruct (fetch call) as [reason|st parsed] eqn:Hf; simpl.
      * eexists. split; [reflexivity|]. simpl. tauto.
      * destruct (ok st) eqn:Hok; simpl.
        -- destruct (OpenAI.extractOutputText _) as [e|text]; simpl;
             eexists; (split; [reflexivity|]); simpl; tauto.
        -- destruct (pass_through_status VariantB rt
                       (stringified
                          (JObj [ (js "error", JStr (js "OpenAI error"));
                                  (js "status", JNum (decimal st));
                                  (js "details", match parsed with
                                                 | Some d => d
                                                 | None => JObj []
                                                 end) ])) st) as [r [Hr Hs]].
           exists r. split; [exact Hr|]. destruct Hs as [Hs|Hs]; [|tauto].
           do 5 right. exists call, st, parsed. auto.
    + exists r. split; [reflexivity|]. unfold early_status in Hearly. tauto.
    + eexists. split; [reflexivity|]. simpl. tauto.
Qed.

(** ** What a 200 of variant A carries *)

Lemma extractTextFromGemini_trimmed (data : JsVal) :
  trim (Gemini.extractTextFromGemini data) = Gemini.extractTextFromGemini data.
Proof.
  unfold Gemini.extractTextFromGemini.
  destruct (isArray _); [apply trim_idempotent|reflexivity].
Qed.

Lemma response_id_of_not_empty (rt : Runtime) (data : JsVal) (rid : jsstring) :
  (forall u, randomUUID rt = Some u -> u <> []) ->
  Gemini.response_id_of rt data = inr rid -> rid <> [].
Proof.
  intros Hu. pose proof (synthesized_id_not_empty rt Hu) as Hsyn.
  unfold Gemini.response_id_of.
  destruct (truthy _).
  - destruct (ToString _) as [e|s]; simpl; [discriminate|].
    destruct s as [|c s]; simpl; intros H; injection H as <-; [exact Hsyn|discriminate].
  - intros H; injection H as <-. exact Hsyn.
Qed.

(** X6. A 200 response of variant A always carries a text that is not empty
    and has no surrounding white space, and a response_id that is a non-empty
    string. *)
Theorem X6_success_of_variant_A_is_never_empty
    (rt : Runtime) (env : Env) (req : Request)
    (fetch : FetchCall -> FetchOutcome) (r : Response) :
  (forall u, randomUUID rt = Some u -> u <> []) ->
  result (Gemini.POST rt env req fetch) = inr r ->
  status r = 200%Z ->
  exists text rid,
    body r = JObj [(js "text", JStr text); (js "response_id", JStr rid)]
    /\ text <> [] /\ trim text = text /\ rid <> [].
Proof.
  intros Hu Hr Hs.
  pose proof (before_fetch_early VariantA rt env req) as Hearly. simpl in Hearly.
  unfold Gemini.POST in Hr.
  destruct (Gemini.before_fetch rt env req) as [call|r0|e]; simpl in Hr, Hearly.
  - destruct (fetch call) as [reason|st parsed]; simpl in Hr.
    + injection Hr as <-. discriminate Hs.
    + destruct (ok st) eqn:Hok; simpl in Hr.
      * destruct (Gemini.response_id_of rt _) as [e|rid] eqn:Hid; simpl in Hr.
        -- injection Hr as <-. discriminate Hs.
        -- destruct (is_empty (Gemini.extractTextFromGemini _)) eqn:Hempty; simpl in Hr;
             injection Hr as <-; [discriminate Hs|].
           eexists. exists rid. split; [reflexivity|].
           split; [|split].
           ++ intros H. rewrite H in Hempty. discriminate Hempty.
           ++ apply extractTextFromGemini_trimmed.
           ++ exact (response_id_of_not_empty rt _ rid Hu Hid).
      * destruct (pass_through_status VariantA rt
                    (stringified
                       (JObj [ (js "error", JStr (js "Gemini error"));
                               (js "status", JNum (decimal st));
                               (js "details", match parsed with
                                              | Some d => d
                                              | None => JObj []
                                              end) ])) st) as [r' [Hr' Hst]].
        pose proof (eq_trans (eq_sym Hr') Hr) as E. injection E as <-.
        destruct Hst as [Hst|Hst]; [|rewrite Hst in Hs; discriminate Hs].
        rewrite Hs in Hst. subst st. discriminate Hok.
  - injection Hr as <-. unfold early_status in Hearly. rewrite Hs in Hearly.
    destruct Hearly as [H|[H|H]]; discriminate H.
  - injection Hr as <-. discriminate Hs.
Qed.

Lemma X6_witness :
  exists text rid,
    body {| status := 200;
            headers := Gemini.response_headers;
            body := JObj [ (js "text", JStr (js "Hola" ++ [10] ++ js "¿Cómo estás?"));
                           (js "response_id",
                            JStr (js "0b0e7a52-6f0c-4c2e-9a55-3f1d2a7c9e10")) ] |}
    = JObj [(js "text", JStr text); (js "response_id", JStr rid)]
    /\ text <> [] /\ trim text = text /\ rid <> [].
Proof.
  apply (X6_success_of_variant_A_is_never_empty Sample.runtime Sample.env
           (Sample.request [] (Sample.say (js "es") (js "hola")))
           (Sample.answers 200 Sample.fragments_A)).
  - intros u Hu. vm_compute in Hu. injection Hu as <-. discriminate.
  - vm_compute. reflexivity.
  - reflexivity.
Defined.

(** ** What variant B makes of a 2xx answer *)

(** X7. On a 2xx answer variant B returns 200 with the extracted text,
    whatever it is, and with the provider's top-level id as [JSON.stringify]
    writes it: null when there is none or when it is a non-finite number, and
    as it came when it holds no such number; when the extraction throws it
    answers 500 Server error.  One call was made either way. *)
Theorem X7_success_of_variant_B
    (rt : Runtime) (env : Env) (req : Request)
    (fetch : FetchCall -> FetchOutcome) (call : FetchCall)
    (st : Z) (parsed : option JsVal) :
  OpenAI.before_fetch env req = Next call ->
  fetch call = FetchResponse st parsed ->
  ok st = true ->
  OpenAI.POST rt env req fetch
  = {| result :=
         match OpenAI.extractOutputText (upstream_data parsed) with
         | inr text =>
             inr {| status := 200;
                    headers := OpenAI.response_headers;
                    body := JObj [ (js "text", JStr text);
                                   (js "response_id",
                                    stringified
                                      (nullish (get (upstream_data parsed) (js "id"))
                                         JNull)) ] |}
         | inl e =>
             inr (error_response VariantB 500
                    [ (js "error", JStr (js "Server error"));
                      (js "details", JStr (message rt e)) ])
         end;
       calls := [call] |}
  /\ (forall text r,
        OpenAI.extractOutputText (upstream_data parsed) = inr text ->
        result (OpenAI.POST rt env req fetch) = inr r ->
        get (body r) (js "text") = JStr text
        /\ (nullish (get (upstream_data parsed) (js "id")) JNull = JNull ->
            get (body r) (js "response_id") = JNull)
        /\ (forall repr, get (upstream_data parsed) (js "id") = JNum repr ->
            get (body r) (js "response_id")
            = if non_finite repr then JNull else JNum repr)
        /\ (finite_json (get (upstream_data parsed) (js "id")) = true ->
            get (body r) (js "response_id") = get (upstream_data parsed) (js "id"))).
Proof.
  intros Hb Hf Hok.
  assert (H : OpenAI.POST rt env req fetch
              = {| result :=
                     match OpenAI.extractOutputText (upstream_data parsed) with
                     | inr text =>
                         inr {| status := 200;
                                headers := OpenAI.response_headers;
                                body := JObj [ (js "text", JStr text);
                                               (js "response_id",
                                                stringified
                                                  (nullish
                                                     (get (upstream_data parsed) (js "id"))
                                                     JNull)) ] |}
                     | inl e =>
                         inr (error_response VariantB 500
                                [ (js "error", JStr (js "Server error"));
                                  (js "details", JStr (message rt e)) ])
                     end;
                   calls := [call] |}).
  { unfold OpenAI.POST. rewrite Hb, Hf. unfold OpenAI.reply.
    rewrite Hok. simpl negb. cbv iota. fold (upstream_data parsed).
    destruct (OpenAI.extractOutputText (upstream_data parsed)); [reflexivity|].
    cbn [bind lift].
    destruct (get (upstream_data parsed) (js "id")); reflexivity. }
  split; [exact H|].
  intros text r Ht. rewrite H, Ht. simpl result. intros Hr. injection Hr as <-.
  cbn [body].
  assert (Hg : forall x,
             get (JObj [(js "text", JStr text); (js "response_id", x)]) (js "response_id")
             = x) by reflexivity.
  rewrite Hg. clear Hg.
  split; [reflexivity|]. split; [|split].
  - intros ->. reflexivity.
  - intros repr ->. reflexivity.
  - intros Hfin.
    destruct (get (upstream_data parsed) (js "id")) eqn:E; try discriminate Hfin;
      cbn [nullish]; try reflexivity; now apply stringified_finite.
Qed.

Lemma X7_witness :
  result (OpenAI.POST Sample.runtime Sample.env
            (Sample.request [] (Sample.say (js "es") (js "hola")))
            (Sample.answers 200 (JObj [ (js "id", JNum (js "Infinity"));
                                        (js "output", JStr (js "plain")) ])))
  = inr {| status := 200;
           headers := OpenAI.response_headers;
           body := JObj [(js "text", JStr []); (js "response_id", JNull)] |}.
Proof.
  rewrite (proj1 (X7_success_of_variant_B Sample.runtime Sample.env
             (Sample.request [] (Sample.say (js "es") (js "hola")))
             (Sample.answers 200 (JObj [ (js "id", JNum (js "Infinity"));
                                         (js "output", JStr (js "plain")) ]))
             (Sample.prepared (OpenAI.before_fetch Sample.env
                                 (Sample.request [] (Sample.say (js "es") (js "hola")))))
             200%Z (Some (JObj [ (js "id", JNum (js "Infinity"));
                                 (js "output", JStr (js "plain")) ]))
             ltac:(vm_compute; reflexivity) ltac:(reflexivity) ltac:(reflexivity))).
  vm_compute. reflexivity.
Defined.

Lemma iterate_throws (v : JsVal) :
  not_iterable v = true -> iterate v = inl (EngineError NotIterable).
Proof. destruct v; simpl; intros H; try discriminate H; reflexivity. Qed.

Lemma iterate_only_throws_not_iterable (v : JsVal) (e : Thrown) :
  iterate v = inl e -> e = EngineError NotIterable /\ not_iterable v = true.
Proof.
  destruct v; simpl; intros H; try discriminate H; injection H as <-;
    split; reflexivity.
Qed.

(** The outer loop stops with a TypeError at the first message whose content
    cannot be iterated. *)
Lemma output_texts_throws (out : list JsVal) :
  existsb broken_message out = true ->
  OpenAI.output_texts out = inl (EngineError NotIterable).
Proof.
  induction out as [|item rest IH]; simpl; [discriminate|].
  unfold broken_message at 1.
  destruct (OpenAI.is_literal (get item (js "type")) (js "message")); simpl.
  - destruct (not_iterable (nullish (get item (js "content")) (JArr []))) eqn:E; simpl.
    + intros _. now rewrite (iterate_throws _ E).
    + intros H. destruct (iterate _) as [e|content] eqn:Ei; simpl.
      * apply iterate_only_throws_not_iterable in Ei. destruct Ei as [_ Ei]. congruence.
      * now rewrite (IH H).
  - exact IH.
Qed.

(** The loops throw for no other reason. *)
Lemma output_texts_only_throws (out : list JsVal) (e : Thrown) :
  OpenAI.output_texts out = inl e ->
  e = EngineError NotIterable /\ existsb broken_message out = true.
Proof.
  induction out as [|item rest IH]; simpl; [discriminate|].
  unfold broken_message at 1.
  destruct (OpenAI.is_literal (get item (js "type")) (js "message")); simpl.
  - destruct (iterate _) as [e'|content] eqn:Ei; simpl.
    + intros H. injection H as <-.
      apply iterate_only_throws_not_iterable in Ei. destruct Ei as [-> ->]. auto.
    + destruct (OpenAI.output_texts rest) as [e'|more]; simpl; [|discriminate].
      intros H. injection H as <-. destruct (IH eq_refl) as [-> ->].
      split; [reflexivity|apply orb_true_r].
  - exact IH.
Qed.

(** X8. The extractor of variant B throws exactly when the [output] of the
    answer is a boolean, a number or an object, or when one of its message
    items has such a [content]; the error is then a TypeError (not
    iterable).  A missing or null [output], a string, and items that are
    not messages never make it throw. *)
Theorem X8_extractOutputText_throws_on_what_is_not_iterable (data : JsVal) (e : Thrown) :
  OpenAI.extractOutputText data = inl e
  <-> e = EngineError NotIterable
      /\ (not_iterable (nullish (get data (js "output")) (JArr [])) = true
          \/ exists out,
               iterate (nullish (get data (js "output")) (JArr [])) = inr out
               /\ existsb broken_message out = true).
Proof.
  unfold OpenAI.extractOutputText. split.
  - destruct (iterate _) as [e'|out] eqn:Ei; simpl.
    + intros H. injection H as <-.
      apply iterate_only_throws_not_iterable in Ei. destruct Ei as [-> Ei]. auto.
    + destruct (OpenAI.output_texts out) as [e'|parts] eqn:Eo; simpl; [|discriminate].
      intros H. injection H as <-.
      apply output_texts_only_throws in Eo. destruct Eo as [-> Eo].
      split; [reflexivity|]. right. exists out. auto.
  - intros [-> [H|[out [Hi Ho]]]].
    + now rewrite (iterate_throws _ H).
    + rewrite Hi. simpl. now rewrite (output_texts_throws out Ho).
Qed.

(** ** A 2xx answer whose body is not JSON *)

(** X9. When the provider answers 2xx with a body that does not parse as
    JSON, variant A answers 502 Empty response with an empty object as details
    and a synthesized response_id, and variant B answers 200 with an empty
    text and a null response_id. *)
Theorem X9_success_with_an_unparseable_body
    (v : Variant) (rt : Runtime) (env : Env) (req : Request)
    (fetch : FetchCall -> FetchOutcome) (call : FetchCall) (st : Z) :
  before_fetch v rt env req = Next call ->
  fetch call = FetchResponse st None ->
  ok st = true ->
  POST v rt env req fetch
  = {| result :=
         inr match v with
             | VariantA =>
                 error_response VariantA 502
                   [ (js "error", JStr (js "Empty response"));
                     (js "response_id", JStr (Gemini.synthesized_id rt));
                     (js "details", JObj []) ]
             | VariantB =>
                 {| status := 200;
                    headers := OpenAI.response_headers;
                    body := JObj [(js "text", JStr []); (js "response_id", JNull)] |}
             end;
       calls := [call] |}.
Proof.
  intros Hb Hf Hok. destruct v; simpl in Hb.
  - simpl POST.
    rewrite (Gemini_POST_on_success rt env req fetch call st None Hb Hf Hok). reflexivity.
  - simpl POST. unfold OpenAI.POST. rewrite Hb, Hf. unfold OpenAI.reply.
    rewrite Hok. reflexivity.
Qed.

Lemma X9_witness :
  result (POST VariantA Sample.runtime Sample.env
            (Sample.request [] (Sample.say (js "es") (js "hola")))
            (fun _ => FetchResponse 200 None))
  = inr (error_response VariantA 502
           [ (js "error", JStr (js "Empty response"));
             (js "response_id", JStr (js "0b0e7a52-6f0c-4c2e-9a55-3f1d2a7c9e10"));
             (js "details", JObj []) ]).
Proof.
  rewrite (X9_success_with_an_unparseable_body VariantA Sample.runtime Sample.env
             (Sample.request [] (Sample.say (js "es") (js "hola")))
             (fun _ => FetchResponse 200 None)
             (Sample.prepared (Gemini.before_fetch Sample.runtime Sample.env
                                 (Sample.request [] (Sample.say (js "es") (js "hola")))))
             200%Z ltac:(vm_compute; reflexivity) ltac:(reflexivity) ltac:(reflexivity)).
  vm_compute. reflexivity.
Defined.

(** ** The conversation sent by variant A *)

Lemma history_contents_typed (msgs : list (jsstring * jsstring)) :
  Gemini.history_contents (map (fun m => history_entry (fst m) (snd m)) msgs)
  = inr (map (fun m => Gemini.content (gemini_role (fst m)) (trim (snd m)))
           (filter (fun m => negb (is_empty (trim (snd m)))) msgs)).
Proof.
  induction msgs as [|[role text] msgs IH]; [reflexivity|].
  cbn [map fst snd filter].
  unfold Gemini.history_contents; fold Gemini.history_contents.
  change (get (history_entry role text) (js "text")) with (JStr text).
  change (get (history_entry role text) (js "role")) with (JStr role).
  cbn [nullish toString ToString bindE].
  destruct (is_empty (trim text)); cbn [negb]; [exact IH|].
  rewrite IH. reflexivity.
Qed.

(** X10. For a history made of messages with a string role and a string
    text, [buildContents] sends, in order, one entry per message whose trimmed
    text is not empty, with that trimmed text and the role model for assistant
    and model and user for any other role, followed by the current user text
    as a last user entry. *)
Theorem X10_buildContents_of_a_typed_history
    (msgs : list (jsstring * jsstring)) (userText : jsstring) :
  Gemini.buildContents (JArr (map (fun m => history_entry (fst m) (snd m)) msgs)) userText
  = inr (map (fun m => Gemini.content (gemini_role (fst m)) (trim (snd m)))
           (filter (fun m => negb (is_empty (trim (snd m)))) msgs)
         ++ [Gemini.content (js "user") userText]).
Proof.
  unfold Gemini.buildContents. cbn [isArray]. now rewrite history_contents_typed.
Qed.

Lemma history_contents_well_formed (h : list JsVal) (prev : list JsVal) :
  Gemini.history_contents h = inr prev ->
  Forall well_formed_content prev /\ (List.length prev <= List.length h)%nat.
Proof.
  revert prev. induction h as [|m rest IH]; intros prev; simpl.
  - intros H. injection H as <-. split; [constructor|apply Nat.le_refl].
  - destruct (toString (nullish (get m (js "text")) (JStr (js "")))) as [e|t0]; simpl;
      [discriminate|].
    destruct (is_empty (trim t0)) eqn:Et.
    + intros H. destruct (IH prev H) as [Hf Hl]. split; [exact Hf|]. now apply Nat.le_le_succ_r.
    + destruct (toString (nullish (get m (js "role")) (JStr (js "user")))) as [e|roleRaw];
        simpl; [discriminate|].
      destruct (Gemini.history_contents rest) as [e|more]; simpl; [discriminate|].
      intros H. injection H as <-. destruct (IH more eq_refl) as [Hf Hl].
      split; [|simpl; now apply le_n_S].
      constructor; [|exact Hf].
      eexists. exists (trim t0). split; [reflexivity|]. split; [|split].
      * destruct (eqb roleRaw (js "assistant") || eqb roleRaw (js "model")); auto.
      * intros H. rewrite H in Et. discriminate Et.
      * apply trim_idempotent.
Qed.

(** X11. Whatever JSON the client sends as history, a conversation that
    [buildContents] produces ends with the current user text as a user entry;
    every entry before it has the role user or model and a non-empty text
    without surrounding white space, and there are at most as many of them as
    the history array has elements (none when the history is not an
    array). *)
Theorem X11_buildContents_keeps_the_conversation_well_formed
    (history : JsVal) (userText : jsstring) (contents : list JsVal) :
  Gemini.buildContents history userText = inr contents ->
  exists prev,
    contents = prev ++ [Gemini.content (js "user") userText]
    /\ Forall well_formed_content prev
    /\ (List.length prev
        <= match history with JArr h => List.length h | _ => 0 end)%nat.
Proof.
  unfold Gemini.buildContents.
  destruct history as [| |b|n|s|h|props]; simpl;
    try (intros H; injection H as <-; exists []; repeat split; constructor).
  destruct (Gemini.history_contents h) as [e|prev] eqn:E; simpl; [discriminate|].
  intros H. injection H as <-. exists prev.
  destruct (history_contents_well_formed h prev E) as [Hf Hl]. auto.
Qed.

Lemma X11_witness :
  exists prev,
    [ Gemini.content (js "model") (js "Ciao!"); Gemini.content (js "user") (js "come stai?") ]
    = prev ++ [Gemini.content (js "user") (js "come stai?")]
    /\ Forall well_formed_content prev
    /\ (List.length prev <= 3)%nat.
Proof.
  apply (X11_buildContents_keeps_the_conversation_well_formed
           (JArr [ JObj [(js "role", JStr (js "assistant")); (js "text", JStr (js " Ciao! "))];
                   JNull;
                   JObj [(js "role", JStr (js "user")); (js "text", JStr (js "  "))] ])
           (js "come stai?")).
  vm_compute. reflexivity.
Defined.

Lemma history_contents_throws (h : list JsVal) :
  existsb unconvertible_text h = true ->
  exists e, Gemini.history_contents h = inl e.
Proof.
  induction h as [|m rest IH]; simpl; [discriminate|].
  unfold unconvertible_text at 1.
  destruct (toString (nullish (get m (js "text")) (JStr (js "")))) as [e|t0]; simpl.
  - intros _. eauto.
  - intros H. destruct (IH H) as [e He].
    destruct (is_empty (trim t0)); [eauto|].
    destruct (toString (nullish (get m (js "role")) (JStr (js "user")))) as [e'|roleRaw];
      simpl; [eauto|].
    rewrite He. simpl. eauto.
Qed.

(** X12. In variant A one history message whose text cannot be converted
    to a string (an object with an own toString property, say) fails the whole
    request: once authorization and validation have passed, the handler
    answers 500 and issues no outbound call. *)
Theorem X12_unconvertible_history_fails_the_request
    (rt : Runtime) (env : Env) (req : Request) (fetch : FetchCall -> FetchOutcome)
    (lang : Gemini.Lang) (text : jsstring) (h : list JsVal) :
  Gemini.authorize env req = Next tt ->
  Gemini.validate rt req = Next (lang, text, JArr h) ->
  existsb unconvertible_text h = true ->
  exists r,
    Gemini.POST rt env req fetch = {| result := inr r; calls := [] |}
    /\ status r = 500%Z.
Proof.
  intros Ha Hv Hh. destruct (history_contents_throws h Hh) as [e He].
  unfold Gemini.POST, Gemini.before_fetch. rewrite Ha. simpl. rewrite Hv. simpl.
  destruct (is_empty (trim (or_else (GEMINI_API_KEY env) (js "")))).
  - eexists. split; reflexivity.
  - destruct (encodeURIComponent _) as [e'|encoded]; simpl.
    + eexists. split; reflexivity.
    + unfold Gemini.buildContents. simpl isArray. cbv iota. rewrite He. simpl.
      eexists. split; reflexivity.
Qed.

Lemma X12_witness :
  exists r,
    Gemini.POST Sample.runtime Sample.env
      (Sample.request []
         (JObj [ (js "text", JStr (js "ciao"));
                 (js "history", JArr [JObj [(js "text", Sample.stubborn)]]) ]))
      (Sample.answers 200 Sample.fragments_A)
    = {| result := inr r; calls := [] |}
    /\ status r = 500%Z.
Proof.
  apply (X12_unconvertible_history_fails_the_request Sample.runtime Sample.env
           (Sample.request []
              (JObj [ (js "text", JStr (js "ciao"));
                      (js "history", JArr [JObj [(js "text", Sample.stubborn)]]) ]))
           (Sample.answers 200 Sample.fragments_A)
           Gemini.es (js "ciao") [JObj [(js "text", Sample.stubborn)]]);
    vm_compute; reflexivity.
Defined.

(** ** What an outbound call carries *)

Lemma Gemini_before_fetch_inv (rt : Runtime) (env : Env) (req : Request) (call : FetchCall) :
  Gemini.before_fetch rt env req = Next call ->
  exists t0 encoded contents,
    text_field (Gemini.safeParseJson rt req) = inr t0
    /\ is_empty (trim t0) = false
    /\ (1500 <? N.of_nat (List.length (trim t0))) = false
    /\ is_empty (trim (or_else (GEMINI_API_KEY env) (js ""))) = false
    /\ encodeURIComponent (trim (or_else (GEMINI_MODEL env) (js "gemini-2.0-flash")))
       = inr encoded
    /\ Gemini.buildContents (get (Gemini.safeParseJson rt req) (js "history")) (trim t0)
       = inr contents
    /\ url call = js "https://generativelanguage.googleapis.com/v1beta/models/"
                  ++ encoded ++ js ":generateContent"
    /\ method call = js "POST"
    /\ headers_get (call_headers call) (js "x-goog-api-key")
       = Some (trim (or_else (GEMINI_API_KEY env) (js "")))
    /\ get (payload call) (js "contents") = JArr contents
    /\ get (payload call) (js "generationConfig")
       = JObj [ (js "temperature", JNum (js "0.6"));
                (js "maxOutputTokens", JNum (js "280")) ].
Proof.
  unfold Gemini.before_fetch. intros H.
  apply bind_Next in H. destruct H as [[] [_ H]].
  apply bind_Next in H. destruct H as [[[lang text] history] [Hv Ho]].
  unfold Gemini.validate in Hv.
  apply bind_Next in Hv. destruct Hv as [langStr [_ Hv]].
  apply bind_Next in Hv. destruct Hv as [t0 [Ht Hv]]. apply lift_Next in Ht.
  destruct (is_empty (trim t0)) eqn:Ee; [now apply returning_not_Next in Hv|].
  destruct (1500 <? N.of_nat (List.length (trim t0))) eqn:El;
    [now apply returning_not_Next in Hv|].
  injection Hv as <- <- <-.
  unfold Gemini.outbound in Ho.
  destruct (is_empty (trim (or_else (GEMINI_API_KEY env) (js "")))) eqn:Ek;
    [now apply returning_not_Next in Ho|].
  apply bind_Next in Ho. destruct Ho as [encoded [Henc Ho]]. apply lift_Next in Henc.
  apply bind_Next in Ho. destruct Ho as [contents [Hc Ho]]. apply lift_Next in Hc.
  injection Ho as <-.
  exists t0, encoded, contents. repeat split; try assumption; reflexivity.
Qed.

Lemma OpenAI_before_fetch_inv (env : Env) (req : Request) (call : FetchCall) :
  OpenAI.before_fetch env req = Next call ->
  exists t0 prev,
    text_field (match req_json req with Some b => b | None => JNull end) = inr t0
    /\ is_empty (trim t0) = false
    /\ (1500 <? N.of_nat (List.length (trim t0))) = false
    /\ missing (OPENAI_API_KEY env) = false
    /\ OpenAI.validate req
       = Next (match toString (nullish (get (match req_json req with
                                             | Some b => b
                                             | None => JNull
                                             end) (js "lang")) (JStr (js "es"))) with
               | inr l => l
               | inl _ => []
               end, trim t0, prev)
    /\ url call = js "https://api.openai.com/v1/responses"
    /\ method call = js "POST"
    /\ headers_get (call_headers call) (js "authorization")
       = Some (js "Bearer " ++ or_else (OPENAI_API_KEY env) (js ""))
    /\ get (payload call) (js "input") = JStr (trim t0)
    /\ get (payload call) (js "model") = JStr (or_else (OPENAI_MODEL env) (js "gpt-4.1"))
    /\ get (payload call) (js "temperature") = JNum (js "0.6")
    /\ get (payload call) (js "max_output_tokens") = JNum (js "280")
    /\ get (payload call) (js "store") = JBool false
    /\ get (payload call) (js "previous_response_id")
       = match prev with
         | Some p => if is_empty p then JUndefined else JStr p
         | None => JUndefined
         end.
Proof.
  unfold OpenAI.before_fetch. intros H.
  apply bind_Next in H. destruct H as [[] [_ H]].
  apply bind_Next in H. destruct H as [[[lang text] prev] [Hv Ho]].
  pose proof Hv as Hv0.
  unfold OpenAI.validate in Hv.
  apply bind_Next in Hv. destruct Hv as [langStr [Hl Hv]]. apply lift_Next in Hl.
  apply bind_Next in Hv. destruct Hv as [t0 [Ht Hv]]. apply lift_Next in Ht.
  apply bind_Next in Hv. destruct Hv as [prev0 [_ Hv]].
  destruct (is_empty (trim t0)) eqn:Ee; [now apply returning_not_Next in Hv|].
  destruct (1500 <? N.of_nat (List.length (trim t0))) eqn:El;
    [now apply returning_not_Next in Hv|].
  injection Hv as <- <- <-.
  unfold OpenAI.outbound in Ho.
  destruct (missing (OPENAI_API_KEY env)) eqn:Ek; [now apply returning_not_Next in Ho|].
  injection Ho as <-.
  exists t0, prev0. rewrite Hl.
  repeat split; try assumption; try reflexivity.
  destruct prev0 as [p|]; [destruct (is_empty p)|]; reflexivity.
Qed.

(** X13. Every outbound call of either variant carries the trimmed text of
    the request as its user text, and that text is never empty and never
    longer than 1500 code units. *)
Theorem X13_every_call_carries_the_bounded_text
    (v : Variant) (rt : Runtime) (env : Env) (req : Request) (call : FetchCall) :
  before_fetch v rt env req = Next call ->
  exists t0,
    text_field (parsed_body v rt req) = inr t0
    /\ text_sent v call = JStr (trim t0)
    /\ trim t0 <> []
    /\ N.of_nat (List.length (trim t0)) <= 1500.
Proof.
  intros Hb. destruct v; simpl in Hb.
  - destruct (Gemini_before_fetch_inv rt env req call Hb)
      as (t0 & encoded & contents & Ht & He & Hl & _ & _ & Hc & _ & _ & _ & Hp & _).
    exists t0. split; [exact Ht|]. split; [|split].
    + unfold text_sent. rewrite Hp.
      unfold Gemini.buildContents in Hc.
      destruct (match isArray _ with Some h => _ | None => _ end) as [e|previous];
        simpl in Hc; [discriminate|].
      injection Hc as <-. rewrite last_last. reflexivity.
    + intros H. rewrite H in He. discriminate He.
    + now apply N.ltb_ge.
  - destruct (OpenAI_before_fetch_inv env req call Hb)
      as (t0 & prev & Ht & He & Hl & _ & _ & _ & _ & _ & Hi & _).
    exists t0. split; [exact Ht|]. split; [exact Hi|]. split.
    + intros H. rewrite H in He. discriminate He.
    + now apply N.ltb_ge.
Qed.

Lemma X13_witness :
  exists t0,
    text_field (parsed_body VariantA Sample.runtime
                  (Sample.request [] (Sample.say (js "es") (js "  hola  ")))) = inr t0
    /\ text_sent VariantA
         (Sample.prepared (Gemini.before_fetch Sample.runtime Sample.env
                             (Sample.request [] (Sample.say (js "es") (js "  hola  ")))))
       = JStr (trim t0)
    /\ trim t0 <> []
    /\ N.of_nat (List.length (trim t0)) <= 1500.
Proof.
  apply (X13_every_call_carries_the_bounded_text VariantA Sample.runtime Sample.env
           (Sample.request [] (Sample.say (js "es") (js "  hola  ")))).
  vm_compute. reflexivity.
Defined.

(** X14. Every outbound call of either variant is a POST that carries the
    deployment's provider credential, which is then set and usable, in the
    provider's header, and the fixed generation parameters: temperature 0.6
    and an output limit of 280 tokens. *)
Theorem X14_every_call_carries_the_credential_and_the_parameters
    (v : Variant) (rt : Runtime) (env : Env) (req : Request) (call : FetchCall) :
  before_fetch v rt env req = Next call ->
  method call = js "POST"
  /\ generation_parameters v call = (JNum (js "0.6"), JNum (js "280"))
  /\ exists key,
       credential v env = Some key
       /\ usable_key v key
       /\ headers_get (call_headers call) (credential_header v)
          = Some (credential_value v key).
Proof.
  intros Hb. destruct v; simpl in Hb.
  - destruct (Gemini_before_fetch_inv rt env req call Hb)
      as (t0 & encoded & contents & _ & _ & _ & Hk & _ & _ & _ & Hm & Hh & _ & Hg).
    split; [exact Hm|]. split; [unfold generation_parameters; now rewrite Hg|].
    simpl credential. destruct (GEMINI_API_KEY env) as [key|]; [|discriminate Hk].
    exists key. change (js "") with (@nil N) in Hk, Hh. rewrite or_else_some in Hk, Hh.
    split; [reflexivity|]. split; [|exact Hh].
    simpl. intros H. rewrite H in Hk. discriminate Hk.
  - destruct (OpenAI_before_fetch_inv env req call Hb)
      as (t0 & prev & _ & _ & _ & Hk & _ & _ & Hm & Hh & _ & _ & Ht & Hx & _).
    split; [exact Hm|]. split; [unfold generation_parameters; now rewrite Ht, Hx|].
    simpl credential. destruct (OPENAI_API_KEY env) as [key|]; [|discriminate Hk].
    exists key. change (js "") with (@nil N) in Hh. rewrite or_else_some in Hh.
    split; [reflexivity|]. split; [|exact Hh].
    simpl. intros H. rewrite H in Hk. discriminate Hk.
Qed.

Lemma X14_witness :
  exists key,
    credential VariantB Sample.env = Some key
    /\ usable_key VariantB key
    /\ headers_get
         (call_headers
            (Sample.prepared (OpenAI.before_fetch Sample.env
                                (Sample.request [] (Sample.say (js "es") (js "hola"))))))
         (credential_header VariantB)
       = Some (credential_value VariantB key).
Proof.
  apply (X14_every_call_carries_the_credential_and_the_parameters VariantB Sample.runtime
           Sample.env (Sample.request [] (Sample.say (js "es") (js "hola")))).
  vm_compute. reflexivity.
Defined.

(** X15. Variant B forwards [previous_response_id] only when the request
    carries a truthy one whose string form is not empty, and then as that
    string; in every other case the call has no such property. *)
Theorem X15_previous_response_id_is_forwarded_when_present
    (env : Env) (req : Request) (call : FetchCall) :
  OpenAI.before_fetch env req = Next call ->
  get (payload call) (js "previous_response_id")
  = let p := get (match req_json req with Some b => b | None => JNull end)
               (js "previous_response_id") in
    if truthy p
    then match toString p with
         | inr s => if is_empty s then JUndefined else JStr s
         | inl _ => JUndefined
         end
    else JUndefined.
Proof.
  intros Hb.
  destruct (OpenAI_before_fetch_inv env req call Hb)
    as (t0 & prev & _ & _ & _ & _ & Hv & _ & _ & _ & _ & _ & _ & _ & _ & Hp).
  rewrite Hp. clear Hp. cbv zeta.
  unfold OpenAI.validate in Hv.
  apply bind_Next in Hv. destruct Hv as [l [_ Hv]].
  apply bind_Next in Hv. destruct Hv as [t1 [_ Hv]].
  apply bind_Next in Hv. destruct Hv as [prev0 [Hprev Hv]].
  destruct (is_empty (trim t1)); [now apply returning_not_Next in Hv|].
  destruct (1500 <? N.of_nat (List.length (trim t1))); [now apply returning_not_Next in Hv|].
  injection Hv as _ _ <-.
  destruct (truthy _).
  - apply bind_Next in Hprev. destruct Hprev as [p [Hp Hprev]]. apply lift_Next in Hp.
    injection Hprev as <-. rewrite Hp. reflexivity.
  - injection Hprev as <-. reflexivity.
Qed.

Lemma X15_witness :
  get (payload
         (Sample.prepared
            (OpenAI.before_fetch Sample.env
               (Sample.request []
                  (JObj [ (js "text", JStr (js "hola"));
                          (js "previous_response_id", JStr (js "resp_1")) ])))))
    (js "previous_response_id")
  = JStr (js "resp_1").
Proof.
  rewrite (X15_previous_response_id_is_forwarded_when_present Sample.env
             (Sample.request []
                (JObj [ (js "text", JStr (js "hola"));
                        (js "previous_response_id", JStr (js "resp_1")) ]))
             (Sample.prepared
                (OpenAI.before_fetch Sample.env
                   (Sample.request []
                      (JObj [ (js "text", JStr (js "hola"));
                              (js "previous_response_id", JStr (js "resp_1")) ]))))
             ltac:(vm_compute; reflexivity)).
  vm_compute. reflexivity.
Defined.

(** ** The endpoint of variant A *)

Lemma list_pair_ind {A : Type} (P : list A -> Prop) :
  P [] -> (forall a, P [a]) ->
  (forall a b l, P l -> P (b :: l) -> P (a :: b :: l)) ->
  forall l, P l.
Proof.
  intros H0 H1 H2.
  assert (H : forall l, P l /\ forall a, P (a :: l)).
  { induction l as [|b l [IHl IHb]]; split; auto. }
  intros l. apply H.
Qed.

Lemma hex_digit_unreserved (n : N) : n < 16 -> unreserved (hex_digit n) = true.
Proof.
  intros H. destruct n as [|p]; [reflexivity|].
  do 5 (try (destruct p as [p|p|]; try reflexivity; try lia)).
Qed.

Lemma percent_safe (b : N) : b < 256 -> forallb url_safe (percent b) = true.
Proof.
  intros H. unfold percent. cbn [forallb].
  assert (H1 : b / 16 < 16) by (apply N.Div0.div_lt_upper_bound; lia).
  assert (H2 : b mod 16 < 16) by (apply N.mod_lt; lia).
  unfold url_safe at 2 3.
  rewrite (hex_digit_unreserved _ H1), (hex_digit_unreserved _ H2). reflexivity.
Qed.

Lemma utf8_bytes_are_bytes (cp : N) :
  cp < 1114112 -> forallb (fun b => b <? 256) (utf8_bytes cp) = true.
Proof.
  intros H. unfold utf8_bytes.
  assert (Hm : forall a, a mod 64 < 64) by (intros a; apply N.mod_lt; lia).
  destruct (cp <? 128) eqn:E1; [apply N.ltb_lt in E1; cbn [forallb];
    rewrite (proj2 (N.ltb_lt _ _)); [reflexivity|lia] |].
  destruct (cp <? 2048) eqn:E2.
  { apply N.ltb_lt in E2. cbn [forallb].
    assert (cp / 64 < 32) by (apply N.Div0.div_lt_upper_bound; lia).
    pose proof (Hm cp).
    rewrite !(proj2 (N.ltb_lt _ _)); [reflexivity|lia|lia]. }
  destruct (cp <? 65536) eqn:E3.
  { apply N.ltb_lt in E3. cbn [forallb].
    assert (cp / 4096 < 16) by (apply N.Div0.div_lt_upper_bound; lia).
    pose proof (Hm cp). pose proof (Hm (cp / 64)).
    rewrite !(proj2 (N.ltb_lt _ _)); [reflexivity|lia|lia|lia]. }
  cbn [forallb].
  assert (cp / 262144 < 5) by (apply N.Div0.div_lt_upper_bound; lia).
  pose proof (Hm cp). pose proof (Hm (cp / 64)). pose proof (Hm (cp / 4096)).
  rewrite !(proj2 (N.ltb_lt _ _)); [reflexivity|lia|lia|lia|lia].
Qed.

Lemma escape_safe (cp : N) :
  cp < 1114112 -> forallb url_safe (flat_map percent (utf8_bytes cp)) = true.
Proof.
  intros H. pose proof (utf8_bytes_are_bytes cp H) as Hb.
  induction (utf8_bytes cp) as [|b bs IH]; [reflexivity|].
  cbn [forallb] in Hb. apply andb_true_iff in Hb. destruct Hb as [Hb Hbs].
  cbn [flat_map]. rewrite forallb_app, (percent_safe b), (IH Hbs); [reflexivity|].
  now apply N.ltb_lt.
Qed.

Lemma encodeURIComponent_cons (c : N) (t : jsstring) :
  encodeURIComponent (c :: t)
  = if unreserved c then r <~ encodeURIComponent t ;; inr (c :: r)
    else if is_low c then inl (EngineError URIMalformed)
    else if is_high c then
      match t with
      | d :: t' =>
          if is_low d then
            r <~ encodeURIComponent t' ;;
            inr (flat_map percent
                   (utf8_bytes ((c - 55296) * 1024 + (d - 56320) + 65536)) ++ r)
          else inl (EngineError URIMalformed)
      | [] => inl (EngineError URIMalformed)
      end
    else r <~ encodeURIComponent t ;; inr (flat_map percent (utf8_bytes c) ++ r).
Proof. reflexivity. Qed.

(** What [encodeURIComponent] returns holds unreserved characters and
    percent escapes only. *)
Lemma encodeURIComponent_safe (s : jsstring) :
  units_ok s = true ->
  forall out, encodeURIComponent s = inr out -> forallb url_safe out = true.
Proof.
  induction s as [|c|c d t IHt IHd] using list_pair_ind.
  - intros _ out H. injection H as <-. reflexivity.
  - intros Hu out. cbn [units_ok forallb] in Hu. apply andb_true_iff in Hu.
    destruct Hu as [Hc _]. apply N.ltb_lt in Hc. cbn [encodeURIComponent bindE].
    destruct (unreserved c) eqn:Eu.
    + intros H. injection H as <-. cbn [forallb]. unfold url_safe. now rewrite Eu.
    + destruct (is_low c); [discriminate|]. destruct (is_high c); [discriminate|].
      intros H. injection H as <-. rewrite app_nil_r. apply escape_safe. lia.
  - intros Hu out.
    assert (Hc : c < 65536 /\ units_ok (d :: t) = true /\ units_ok t = true).
    { unfold units_ok in *. cbn [forallb] in *.
      apply andb_true_iff in Hu. destruct Hu as [Hc Hu]. apply N.ltb_lt in Hc.
      split; [exact Hc|]. split; [exact Hu|].
      apply andb_true_iff in Hu. tauto. }
    destruct Hc as [Hc [Hdt Ht]].
    rewrite encodeURIComponent_cons.
    destruct (unreserved c) eqn:Eu.
    + destruct (encodeURIComponent (d :: t)) as [e|r] eqn:Er; simpl; [discriminate|].
      intros H. injection H as <-. cbn [forallb]. unfold url_safe at 1. rewrite Eu.
      exact (IHd Hdt r eq_refl).
    + destruct (is_low c); [discriminate|].
      destruct (is_high c) eqn:Eh.
      * destruct (is_low d) eqn:El; [|discriminate].
        destruct (encodeURIComponent t) as [e|r] eqn:Er; simpl; [discriminate|].
        intros H. injection H as <-.
        rewrite forallb_app, (IHt Ht r eq_refl), escape_safe; [reflexivity|].
        unfold is_high, is_low in Eh, El.
        apply andb_true_iff in Eh, El. destruct Eh as [Eh1 Eh2], El as [El1 El2].
        apply N.leb_le in Eh1, Eh2, El1, El2. lia.
      * destruct (encodeURIComponent (d :: t)) as [e|r] eqn:Er; simpl; [discriminate|].
        intros H. injection H as <-.
        rewrite forallb_app, (IHd Hdt r eq_refl), escape_safe; [reflexivity|lia].
Qed.

(** A string of unreserved characters is left as it is. *)
Lemma encodeURIComponent_unreserved (s : jsstring) :
  forallb unreserved s = true -> encodeURIComponent s = inr s.
Proof.
  induction s as [|c t IH]; [reflexivity|].
  cbn [forallb]. intros H. apply andb_true_iff in H. destruct H as [Hc Ht].
  rewrite encodeURIComponent_cons, Hc, (IH Ht). reflexivity.
Qed.

Lemma trimStart_units_ok (s : jsstring) : units_ok s = true -> units_ok (trimStart s) = true.
Proof.
  unfold units_ok. induction s as [|c t IH]; [reflexivity|].
  intros H. cbn [trimStart]. destruct (is_space c); [|exact H].
  cbn [forallb] in H. apply andb_true_iff in H. now apply IH.
Qed.

Lemma rev_units_ok (s : jsstring) : units_ok s = true -> units_ok (rev s) = true.
Proof.
  unfold units_ok. rewrite !forallb_forall. intros H x Hx. apply H. now apply in_rev.
Qed.

Lemma trim_units_ok (s : jsstring) : units_ok s = true -> units_ok (trim s) = true.
Proof.
  intros H. unfold trim, trimEnd.
  now apply rev_units_ok, trimStart_units_ok, rev_units_ok, trimStart_units_ok.
Qed.

(** X16. The URL variant A calls is always the fixed models endpoint
    followed by the encoded model name and :generateContent: whatever
    GEMINI_MODEL holds, the part that comes from it contains unreserved
    characters and percent escapes only (no slash, question mark or hash), and
    a model name made of unreserved characters appears as it is. *)
Theorem X16_the_model_name_cannot_change_the_endpoint
    (rt : Runtime) (env : Env) (req : Request) (call : FetchCall) :
  units_ok (or_else (GEMINI_MODEL env) (js "gemini-2.0-flash")) = true ->
  Gemini.before_fetch rt env req = Next call ->
  exists encoded,
    url call = js "https://generativelanguage.googleapis.com/v1beta/models/"
               ++ encoded ++ js ":generateContent"
    /\ forallb url_safe encoded = true
    /\ (forallb unreserved (trim (or_else (GEMINI_MODEL env) (js "gemini-2.0-flash"))) = true ->
        encoded = trim (or_else (GEMINI_MODEL env) (js "gemini-2.0-flash"))).
Proof.
  intros Hu Hb.
  destruct (Gemini_before_fetch_inv rt env req call Hb)
    as (t0 & encoded & contents & _ & _ & _ & _ & Henc & _ & Hurl & _).
  exists encoded. split; [exact Hurl|]. split.
  - exact (encodeURIComponent_safe _ (trim_units_ok _ Hu) encoded Henc).
  - intros H. rewrite (encodeURIComponent_unreserved _ H) in Henc. now injection Henc.
Qed.

Lemma X16_witness :
  exists encoded,
    url (Sample.prepared (Gemini.before_fetch Sample.runtime Sample.env
                            (Sample.request [] (Sample.say (js "es") (js "hola")))))
    = js "https://generativelanguage.googleapis.com/v1beta/models/"
      ++ encoded ++ js ":generateContent"
    /\ forallb url_safe encoded = true
    /\ (forallb unreserved (trim (or_else (GEMINI_MODEL Sample.env) (js "gemini-2.0-flash")))
        = true ->
        encoded = trim (or_else (GEMINI_MODEL Sample.env) (js "gemini-2.0-flash"))).
Proof.
  apply (X16_the_model_name_cannot_change_the_endpoint Sample.runtime Sample.env
           (Sample.request [] (Sample.say (js "es") (js "hola")))).
  - vm_compute. reflexivity.
  - vm_compute. reflexivity.
Defined.

(** ** What the extractors read *)

Lemma part_texts_fragments (parts : list JsVal) :
  Gemini.part_texts parts = flat_map part_fragment parts.
Proof.
  induction parts as [|p rest IH]; [reflexivity|].
  cbn [Gemini.part_texts flat_map]. unfold part_fragment at 1.
  destruct (get p (js "text")) as [| |b|n|s|l|o]; simpl; try exact IH;
    try (destruct b; exact IH); try (destruct (negb _); exact IH).
  destruct s as [|c s]; simpl; [exact IH|]. now rewrite IH.
Qed.

(** X18. The extractor of variant A reads the first candidate only: the
    result is the newline-joined, trimmed sequence of the texts of its parts
    that are non-empty strings, every other part being skipped, and the empty
    string when its parts are not an array.  Further candidates are
    ignored. *)
Theorem X18_extractTextFromGemini_reads_the_first_candidate
    (data cand : JsVal) (others : list JsVal) :
  get data (js "candidates") = JArr (cand :: others) ->
  Gemini.extractTextFromGemini data
  = match get (get cand (js "content")) (js "parts") with
    | JArr parts => trim (join [10] (flat_map part_fragment parts))
    | _ => []
    end.
Proof.
  intros H. unfold Gemini.extractTextFromGemini. rewrite H. cbn [get0].
  destruct (get (get cand (js "content")) (js "parts")); try reflexivity.
  cbn [isArray]. now rewrite part_texts_fragments.
Qed.

Lemma X18_witness :
  let first :=
    JObj [(js "content",
           JObj [(js "parts",
                  JArr [ JObj [(js "text", JStr (js "uno"))];
                         JObj [(js "inlineData", JObj [])];
                         JObj [(js "text", JStr (js ""))];
                         JObj [(js "text", JNum (js "2"))];
                         JObj [(js "text", JStr (js "tres "))] ])])] in
  let data := JObj [(js "candidates", JArr [first; Sample.fragments_A])] in
  Gemini.extractTextFromGemini data = js "uno" ++ [10] ++ js "tres".
Proof.
  intros first data.
  rewrite (X18_extractTextFromGemini_reads_the_first_candidate data first
             [Sample.fragments_A] ltac:(vm_compute; reflexivity)).
  vm_compute. reflexivity.
Defined.

Lemma content_texts_fragments (content : list JsVal) :
  OpenAI.content_texts content = flat_map content_fragment content.
Proof.
  induction content as [|c rest IH]; [reflexivity|].
  cbn [OpenAI.content_texts flat_map]. unfold content_fragment at 1, OpenAI.is_literal.
  destruct (get c (js "type")) as [| |b|n|ty|l|o]; try exact IH.
  destruct (eqb ty (js "output_text")).
  - destruct (get c (js "text")) as [| |b|n|s|l|o]; simpl; try exact IH. now rewrite IH.
  - destruct (get c (js "text")); exact IH.
Qed.

Lemma output_texts_fragments (out : list JsVal) :
  existsb broken_message out = false ->
  OpenAI.output_texts out = inr (flat_map item_fragments out).
Proof.
  induction out as [|item rest IH]; [reflexivity|].
  cbn [existsb OpenAI.output_texts flat_map]. intros H.
  apply orb_false_iff in H. destruct H as [Hitem Hrest].
  unfold broken_message in Hitem. unfold item_fragments at 1.
  destruct (OpenAI.is_literal (get item (js "type")) (js "message")); simpl in *.
  - destruct (iterate (nullish (get item (js "content")) (JArr []))) as [e|content] eqn:Ei.
    + apply iterate_only_throws_not_iterable in Ei. destruct Ei as [_ Ei]. congruence.
    + simpl. rewrite (IH Hrest), content_texts_fragments. reflexivity.
  - exact (IH Hrest).
Qed.

(** X19. When the [output] of the answer can be iterated and none of its
    message items has a content that cannot, the extractor of variant B
    returns the newline-joined, trimmed sequence of the string texts of the
    output_text entries of all message items, in order; items that are not
    messages and entries of another type contribute nothing. *)
Theorem X19_extractOutputText_reads_the_output_texts (data : JsVal) (out : list JsVal) :
  iterate (nullish (get data (js "output")) (JArr [])) = inr out ->
  existsb broken_message out = false ->
  OpenAI.extractOutputText data = inr (trim (join [10] (flat_map item_fragments out))).
Proof.
  intros Hi Ho. unfold OpenAI.extractOutputText. rewrite Hi. simpl.
  rewrite (output_texts_fragments out Ho). reflexivity.
Qed.

Lemma X19_witness :
  let out :=
    [ JObj [(js "type", JStr (js "reasoning")); (js "content", JNum (js "1"))];
      JObj [ (js "type", JStr (js "message"));
             (js "content",
              JArr [ JObj [(js "type", JStr (js "refusal")); (js "text", JStr (js "no"))];
                     JObj [ (js "type", JStr (js "output_text"));
                            (js "text", JStr (js "Hola")) ] ]) ];
      JObj [ (js "type", JStr (js "message"));
             (js "content",
              JArr [ JObj [ (js "type", JStr (js "output_text"));
                            (js "text", JStr (js "amigo ")) ] ]) ] ] in
  OpenAI.extractOutputText (JObj [(js "output", JArr out)])
  = inr (js "Hola" ++ [10] ++ js "amigo").
Proof.
  intros out.
  rewrite (X19_extractOutputText_reads_the_output_texts (JObj [(js "output", JArr out)]) out
             ltac:(vm_compute; reflexivity) ltac:(vm_compute; reflexivity)).
  vm_compute. reflexivity.
Defined.
